(** * Shape calculator: polymorphic shapes with lazily cached metrics

    A shallow embedding of [file.cpp]: the abstract class [Shape] with its
    two [mutable] cache fields, the three derived classes [Rectangle],
    [Circle] and [Triangle], the accessors [getArea] and [getPerimeter],
    the printing routines and [calculateShapeStats].

    A C++ [double] is an IEEE 754 binary64 number: it is modelled by Rocq's
    primitive [float], whose operations are the correctly rounded binary64
    ones, so every formula below computes the very number the program
    computes (not-a-number, infinities and signed zeros included). Each
    arithmetic operation is taken to be rounded to binary64 on its own, as
    it is when [double] expressions are evaluated in [double] and products
    are not fused with sums. *)

From Stdlib Require Import Floats ZArith QArith List String Ascii Bool Lia.
Import ListNotations.

Local Open Scope float_scope.

(** ** Constants *)

Module Constants.

(** [constexpr double PI = 3.14159265358979323846;] The decimal literal is
    not a binary64 number; the compiler stores the nearest one, written
    here in hexadecimal so that nothing is rounded silently
    (see [PI_is_the_nearest_double]). *)
Definition PI : float := 0x1.921fb54442d18p+1.

(** [constexpr int PRECISION = 2;] *)
Definition PRECISION : Z := 2%Z.

End Constants.

(** ** Objects

    The data members of the three derived classes. *)

Record Rectangle := mkRectangle {
  width : float;
  height : float
}.

Record Circle := mkCircle {
  radius : float;
  radius_squared : float
}.

Record Triangle := mkTriangle {
  side1 : float;
  side2 : float;
  side3 : float;
  semi_perimeter : float
}.

(** The dynamic type of a [Shape] object together with the members that the
    derived class adds. *)
Inductive Derived :=
| IsRectangle (r : Rectangle)
| IsCircle (c : Circle)
| IsTriangle (t : Triangle).

(** A whole object: the members of the base class [Shape] and the derived
    part. [cached_area] and [cached_perimeter] are the two [mutable]
    members; they start at [-1.0]. *)
Record Shape := mkShape {
  name : string;
  cached_area : float;
  cached_perimeter : float;
  derived : Derived
}.

(** [explicit Shape(string_view shapeName)]: the base-class constructor with
    the default member initialisers of the two caches. *)
Definition Shape_ctor (shapeName : string) (d : Derived) : Shape :=
  {| name := shapeName;
     cached_area := -1.0;
     cached_perimeter := -1.0;
     derived := d |}.

(** [Rectangle(double w, double h)] *)
Definition new_Rectangle (w h : float) : Shape :=
  Shape_ctor "Rectangle" (IsRectangle {| width := w; height := h |}).

(** [Circle(double r)] *)
Definition new_Circle (r : float) : Shape :=
  Shape_ctor "Circle" (IsCircle {| radius := r; radius_squared := r * r |}).

(** [Triangle(double s1, double s2, double s3)] *)
Definition new_Triangle (s1 s2 s3 : float) : Shape :=
  Shape_ctor "Triangle"
    (IsTriangle {| side1 := s1; side2 := s2; side3 := s3;
                   semi_perimeter := (s1 + s2 + s3) * 0.5 |}).

(** ** The pure virtual formulas

    [calculateArea] and [calculatePerimeter] are [const] and read only the
    derived members; the class [Formulas] is the interface, one instance per
    override. *)

Class Formulas (T : Type) := {
  calculateArea : T -> float;
  calculatePerimeter : T -> float
}.

#[export] Instance Rectangle_Formulas : Formulas Rectangle := {|
  calculateArea r := width r * height r;
  calculatePerimeter r := 2.0 * (width r + height r)
|}.

#[export] Instance Circle_Formulas : Formulas Circle := {|
  calculateArea c := Constants.PI * radius_squared c;
  calculatePerimeter c := 2.0 * Constants.PI * radius c
|}.

(** The local [term] of [Triangle::calculateArea]: the radicand of Heron's
    formula on the stored semi-perimeter. *)
Definition term (t : Triangle) : float :=
  semi_perimeter t * (semi_perimeter t - side1 t) *
  (semi_perimeter t - side2 t) * (semi_perimeter t - side3 t).

#[export] Instance Triangle_Formulas : Formulas Triangle := {|
  calculateArea t := sqrt (term t);
  calculatePerimeter t := 2.0 * semi_perimeter t
|}.

(** Virtual dispatch on the dynamic type. *)
#[export] Instance Derived_Formulas : Formulas Derived := {|
  calculateArea d :=
    match d with
    | IsRectangle r => calculateArea r
    | IsCircle c => calculateArea c
    | IsTriangle t => calculateArea t
    end;
  calculatePerimeter d :=
    match d with
    | IsRectangle r => calculatePerimeter r
    | IsCircle c => calculatePerimeter c
    | IsTriangle t => calculatePerimeter t
    end
|}.

#[export] Instance Shape_Formulas : Formulas Shape := {|
  calculateArea s := calculateArea (derived s);
  calculatePerimeter s := calculatePerimeter (derived s)
|}.

(** ** Effects

    The member functions below are [const], yet [getArea] and [getPerimeter]
    assign the [mutable] caches, and [displayInfo] writes to [cout]. A
    computation over a state [S] returns its value, the state it leaves and
    the events it produced, in program order. Two kinds of event are
    recorded: what is sent to [cout], and each run of one of the two virtual
    formulas (so that "the formula is not run again" can be stated). *)

Inductive Item :=
| Manip_fixed
| Manip_setprecision (n : Z)
| Text (s : string)
| Number (d : float)
| Size (n : nat).

Inductive Event :=
| Ran_calculateArea
| Ran_calculatePerimeter
| Out (i : Item).

Record Outcome (S A : Type) := mkOutcome {
  value : A;
  after : S;
  events : list Event
}.
Arguments mkOutcome {S A} _ _ _.
Arguments value {S A} _.
Arguments after {S A} _.
Arguments events {S A} _.

Definition Eff (S A : Type) : Type := S -> Outcome S A.

Definition ret {S A} (a : A) : Eff S A :=
  fun st => mkOutcome a st [].

Definition bind {S A B} (m : Eff S A) (k : A -> Eff S B) : Eff S B :=
  fun st =>
    let r1 := m st in
    let r2 := k (value r1) (after r1) in
    mkOutcome (value r2) (after r2) (events r1 ++ events r2).

Declare Scope eff_scope.
Delimit Scope eff_scope with eff.
Notation "x <- c1 ;; c2" := (bind c1 (fun x => c2))
  (at level 61, c1 at next level, right associativity) : eff_scope.
Notation "c1 ;; c2" := (bind c1 (fun _ => c2))
  (at level 61, right associativity) : eff_scope.
Local Open Scope eff_scope.

(** A member function of [Shape]: the state is the object [*this]. *)
Definition Method (A : Type) : Type := Eff Shape A.

Definition this : Method Shape :=
  fun s => mkOutcome s s [].

Definition assign_cached_area (v : float) : Method unit :=
  fun s => mkOutcome tt
    {| name := name s; cached_area := v;
       cached_perimeter := cached_perimeter s; derived := derived s |} [].

Definition assign_cached_perimeter (v : float) : Method unit :=
  fun s => mkOutcome tt
    {| name := name s; cached_area := cached_area s;
       cached_perimeter := v; derived := derived s |} [].

(** The virtual calls [calculateArea()] and [calculatePerimeter()] made
    from inside the base class. *)
Definition call_calculateArea : Method float :=
  fun s => mkOutcome (calculateArea s) s [Ran_calculateArea].

Definition call_calculatePerimeter : Method float :=
  fun s => mkOutcome (calculatePerimeter s) s [Ran_calculatePerimeter].

(** [cout << i] *)
Definition cout {S} (i : Item) : Eff S unit :=
  fun st => mkOutcome tt st [Out i].

(** ** The accessors of [Shape] *)

(** [string_view getName() const noexcept { return name; }] *)
Definition getName : Method string :=
  s <- this ;; ret (name s).

(** [double getArea() const]: the formula runs when the cache compares
    below zero, and the cache is returned. *)
Definition getArea : Method float :=
  s <- this ;;
  (if cached_area s <? 0 then
     a <- call_calculateArea ;; assign_cached_area a
   else ret tt) ;;
  s' <- this ;;
  ret (cached_area s').

(** [double getPerimeter() const] *)
Definition getPerimeter : Method float :=
  s <- this ;;
  (if cached_perimeter s <? 0 then
     p <- call_calculatePerimeter ;; assign_cached_perimeter p
   else ret tt) ;;
  s' <- this ;;
  ret (cached_perimeter s').

(** ** Printing

    [displayInfo] is overridden in each derived class. Since C++17 the
    operands of a chain of [<<] are evaluated from left to right, so the
    call of [getArea()] comes after the text before it has been written and
    before the call of [getPerimeter()]. *)

Definition nl : string := String (ascii_of_nat 10) EmptyString.

Definition rule : string := (nl ++ "------------------------" ++ nl)%string.

Definition Rectangle_displayInfo (r : Rectangle) : Method unit :=
  cout Manip_fixed ;; cout (Manip_setprecision Constants.PRECISION) ;;
  cout (Text "Shape: ") ;; s <- this ;; cout (Text (name s)) ;;
  cout (Text (nl ++ "Dimensions: ")) ;; cout (Number (width r)) ;;
  cout (Text " x ") ;; cout (Number (height r)) ;;
  cout (Text (nl ++ "Area: ")) ;; a <- getArea ;; cout (Number a) ;;
  cout (Text (nl ++ "Perimeter: ")) ;; p <- getPerimeter ;; cout (Number p) ;;
  cout (Text rule).

Definition Circle_displayInfo (c : Circle) : Method unit :=
  cout Manip_fixed ;; cout (Manip_setprecision Constants.PRECISION) ;;
  cout (Text "Shape: ") ;; s <- this ;; cout (Text (name s)) ;;
  cout (Text (nl ++ "Radius: ")) ;; cout (Number (radius c)) ;;
  cout (Text (nl ++ "Area: ")) ;; a <- getArea ;; cout (Number a) ;;
  cout (Text (nl ++ "Circumference: ")) ;; p <- getPerimeter ;;
  cout (Number p) ;;
  cout (Text rule).

Definition Triangle_displayInfo (t : Triangle) : Method unit :=
  cout Manip_fixed ;; cout (Manip_setprecision Constants.PRECISION) ;;
  cout (Text "Shape: ") ;; s <- this ;; cout (Text (name s)) ;;
  cout (Text (nl ++ "Sides: ")) ;; cout (Number (side1 t)) ;;
  cout (Text ", ") ;; cout (Number (side2 t)) ;;
  cout (Text ", ") ;; cout (Number (side3 t)) ;;
  cout (Text (nl ++ "Area: ")) ;; a <- getArea ;; cout (Number a) ;;
  cout (Text (nl ++ "Perimeter: ")) ;; p <- getPerimeter ;; cout (Number p) ;;
  cout (Text rule).

(** The virtual call [shape.displayInfo()]. *)
Definition displayInfo : Method unit :=
  s <- this ;;
  match derived s with
  | IsRectangle r => Rectangle_displayInfo r
  | IsCircle c => Circle_displayInfo c
  | IsTriangle t => Triangle_displayInfo t
  end.

(** [void processShape(const Shape& shape)] *)
Definition processShape : Method unit :=
  cout (Text "Processing ") ;; n <- getName ;; cout (Text n) ;;
  cout (Text (":" ++ nl)) ;;
  displayInfo.

(** ** Aggregate statistics *)

Record ShapeStats := mkShapeStats {
  total_area : float;
  total_perimeter : float;
  count : nat
}.

(** The range-for loop of [calculateShapeStats]: the state is the vector of
    owned shapes (their caches may be assigned), the accumulator is
    [stats]. *)
Fixpoint stats_loop (stats : ShapeStats) (shapes : list Shape)
  : Outcome (list Shape) ShapeStats :=
  match shapes with
  | [] => mkOutcome stats [] []
  | shape :: rest =>
      let a := getArea shape in
      let stats1 :=
        {| total_area := total_area stats + value a;
           total_perimeter := total_perimeter stats;
           count := count stats |} in
      let p := getPerimeter (after a) in
      let stats2 :=
        {| total_area := total_area stats1;
           total_perimeter := total_perimeter stats1 + value p;
           count := count stats1 |} in
      let r := stats_loop stats2 rest in
      mkOutcome (value r) (after p :: after r)
                (events a ++ events p ++ events r)
  end.

(** [ShapeStats calculateShapeStats(const vector<unique_ptr<Shape>>& shapes)];
    [size_t count] is a natural number, the length of the vector. *)
Definition calculateShapeStats : Eff (list Shape) ShapeStats :=
  fun shapes =>
    stats_loop
      {| total_area := 0.0; total_perimeter := 0.0; count := List.length shapes |}
      shapes.

(** ** The program *)

(** The first loop of [main]: [shape->displayInfo()] on every element. *)
Fixpoint display_all (shapes : list Shape) : Outcome (list Shape) unit :=
  match shapes with
  | [] => mkOutcome tt [] []
  | shape :: rest =>
      let d := displayInfo shape in
      let r := display_all rest in
      mkOutcome tt (after d :: after r) (events d ++ events r)
  end.

(** The five shapes that [main] puts in its vector. *)
Definition main_shapes : list Shape :=
  [ new_Rectangle 5.0 3.0; new_Circle 4.0; new_Triangle 3.0 4.0 5.0;
    new_Rectangle 2.5 6.0; new_Circle 2.5 ].

(** The conversion of [stats.count] to [double] in
    [stats.total_area / stats.count]. *)
Definition double_of_size_t (n : nat) : float :=
  of_uint63 (Uint63.of_Z (Z.of_nat n)).

(** [int main()]: the value is the exit status, the state left is the
    vector [shapes]. The locals [rect] and [circle] live outside the
    vector. *)
Definition main : Outcome (list Shape) Z :=
  let o1 :=
    (cout Manip_fixed ;; cout (Manip_setprecision Constants.PRECISION) ;;
     cout (Text ("=== Optimized Polymorphism Demo: Shape Calculator ==="
                 ++ nl ++ nl)) ;;
     cout (Text ("Individual Shape Information:" ++ nl)) ;;
     display_all ;;
     stats <- calculateShapeStats ;;
     cout (Text (nl ++ "=== Summary Statistics ===" ++ nl)) ;;
     cout (Text "Total shapes: ") ;; cout (Size (count stats)) ;;
     cout (Text (nl ++ "Total area: ")) ;;
     cout (Number (total_area stats)) ;; cout (Text " square units") ;;
     cout (Text (nl ++ "Total perimeter: ")) ;;
     cout (Number (total_perimeter stats)) ;; cout (Text " units") ;;
     cout (Text (nl ++ "Average area: ")) ;;
     cout (Number (total_area stats / double_of_size_t (count stats))) ;;
     cout (Text (" square units" ++ nl ++ nl)) ;;
     cout (Text ("Demonstrating polymorphism with function calls:" ++ nl)))
      main_shapes in
  let rect := processShape (new_Rectangle 7.0 2.0) in
  let circle := processShape (new_Circle 3.0) in
  mkOutcome 0%Z (after o1) (events o1 ++ events rect ++ events circle).

(** ** Histories of an object

    A shape comes into being through one of the three constructors and is
    then only reached through the public interface. [calculateArea] and
    [calculatePerimeter] are public too, but they are pure: calling them
    from outside leaves the object as it is, so they add no reachable
    state. *)

Inductive Ctor :=
| Ctor_Rectangle (w h : float)
| Ctor_Circle (r : float)
| Ctor_Triangle (s1 s2 s3 : float).

Definition construct (c : Ctor) : Shape :=
  match c with
  | Ctor_Rectangle w h => new_Rectangle w h
  | Ctor_Circle r => new_Circle r
  | Ctor_Triangle s1 s2 s3 => new_Triangle s1 s2 s3
  end.

Inductive Call :=
| Call_getName
| Call_getArea
| Call_getPerimeter
| Call_displayInfo
| Call_processShape.

Definition perform (c : Call) : Method unit :=
  match c with
  | Call_getName => _ <- getName ;; ret tt
  | Call_getArea => _ <- getArea ;; ret tt
  | Call_getPerimeter => _ <- getPerimeter ;; ret tt
  | Call_displayInfo => displayInfo
  | Call_processShape => processShape
  end.

Fixpoint perform_all (cs : list Call) : Method unit :=
  match cs with
  | [] => ret tt
  | c :: cs' => perform c ;; perform_all cs'
  end.

(** The two cached metrics, to state once what holds for both. *)
Inductive Metric := Area | Perimeter.

Definition cache (m : Metric) (s : Shape) : float :=
  match m with
  | Area => cached_area s
  | Perimeter => cached_perimeter s
  end.

Definition formula (m : Metric) (s : Shape) : float :=
  match m with
  | Area => calculateArea s
  | Perimeter => calculatePerimeter s
  end.

Definition accessor (m : Metric) : Method float :=
  match m with
  | Area => getArea
  | Perimeter => getPerimeter
  end.

Definition Ran (m : Metric) : Event :=
  match m with
  | Area => Ran_calculateArea
  | Perimeter => Ran_calculatePerimeter
  end.

Definition is_run (m : Metric) (e : Event) : bool :=
  match m, e with
  | Area, Ran_calculateArea => true
  | Perimeter, Ran_calculatePerimeter => true
  | _, _ => false
  end.

(** The object after the assignment [cached_area = v] (or
    [cached_perimeter = v]). *)
Definition store (m : Metric) (v : float) (s : Shape) : Shape :=
  match m with
  | Area => after (assign_cached_area v s)
  | Perimeter => after (assign_cached_perimeter v s)
  end.

(** One object state followed by a later one of the same object: name and
    derived members are the same, and each cache is either untouched or was
    below zero and now holds the value of its formula. *)
Definition advances (s s' : Shape) : Prop :=
  name s' = name s /\
  derived s' = derived s /\
  forall m, cache m s' = cache m s \/
            ((cache m s <? 0) = true /\ cache m s' = formula m s).

(** Whether a call reads the metric [m] through its accessor:
    [displayInfo], and [processShape] which calls it, read both. *)
Definition touches (m : Metric) (c : Call) : bool :=
  match c, m with
  | Call_getName, _ => false
  | Call_getArea, Area => true
  | Call_getArea, Perimeter => false
  | Call_getPerimeter, Area => false
  | Call_getPerimeter, Perimeter => true
  | Call_displayInfo, _ => true
  | Call_processShape, _ => true
  end.

(** How many times the formula of [m] was run in a trace. *)
Definition runs (m : Metric) (l : list Event) : nat :=
  List.length (filter (is_run m) l).

(** What a trace sent to [cout]. *)
Fixpoint outputs (l : list Event) : list Item :=
  match l with
  | [] => []
  | Out i :: l' => i :: outputs l'
  | _ :: l' => outputs l'
  end.

(** The sum of a sequence of doubles as the loop of [calculateShapeStats]
    forms it: from [0.0], left to right, each addition rounded. *)
Definition sum_doubles (l : list float) : float :=
  fold_left PrimFloat.add l 0.0.

(** The rational number that a finite double stands for. *)
Definition exact (x : float) : option Q :=
  match Prim2SF x with
  | S754_zero _ => Some 0%Q
  | S754_finite sg m e =>
      Some (Qmult (inject_Z (if sg then Zneg m else Zpos m))
                  (Qpower (inject_Z 2) e))
  | _ => None
  end.

(** ** Reading the printed report and the vector

    What follows names, as pure functions, what the printing routines are
    expected to write and what the loops do to one element, so that the
    stateful code can be compared with them. *)

(** The name that the constructor of each derived class passes to
    [Shape]. *)
Definition class_name (d : Derived) : string :=
  match d with
  | IsRectangle _ => "Rectangle"
  | IsCircle _ => "Circle"
  | IsTriangle _ => "Triangle"
  end.

(** The line of measurements that each override of [displayInfo] writes. *)
Definition measurements_report (d : Derived) : list Item :=
  match d with
  | IsRectangle r =>
      [Text (nl ++ "Dimensions: "); Number (width r);
       Text " x "; Number (height r)]
  | IsCircle c =>
      [Text (nl ++ "Radius: "); Number (radius c)]
  | IsTriangle t =>
      [Text (nl ++ "Sides: "); Number (side1 t); Text ", ";
       Number (side2 t); Text ", "; Number (side3 t)]
  end.

Definition perimeter_label (d : Derived) : string :=
  match d with
  | IsCircle _ => (nl ++ "Circumference: ")%string
  | _ => (nl ++ "Perimeter: ")%string
  end.

(** The report of a shape whose area is [a] and whose perimeter is [p]. *)
Definition report_with (s : Shape) (a p : float) : list Item :=
  [Manip_fixed; Manip_setprecision Constants.PRECISION;
   Text "Shape: "; Text (name s)]
  ++ measurements_report (derived s)
  ++ [Text (nl ++ "Area: "); Number a;
      Text (perimeter_label (derived s)); Number p; Text rule].

(** The report computed from the formulas alone, without any cache. *)
Definition report (s : Shape) : list Item :=
  report_with s (calculateArea s) (calculatePerimeter s).

(** One element of the vector after an iteration of the loop of
    [calculateShapeStats] (or after [displayInfo]): both accessors were
    called on it, the area first. *)
Definition visited (s : Shape) : Shape :=
  after (getPerimeter (after (getArea s))).

(** A shape described by how it came to be: the constructor call and the
    calls made on it since. *)
Definition History : Type := (Ctor * list Call)%type.

Definition built (h : History) : Shape := construct (fst h).

Definition reached (h : History) : Shape :=
  after (perform_all (snd h) (built h)).

(** No argument of the constructor compares below zero. *)
Definition no_negative_dimension (c : Ctor) : bool :=
  match c with
  | Ctor_Rectangle w h => negb (w <? 0) && negb (h <? 0)
  | Ctor_Circle r => negb (r <? 0)
  | Ctor_Triangle s1 s2 s3 =>
      negb (s1 <? 0) && negb (s2 <? 0) && negb (s3 <? 0)
  end.

(** Whether a double, given by its sign, mantissa and exponent, does not
    compare below zero: everything but a negative number or minus
    infinity. *)
Definition sf_not_below_zero (x : spec_float) : bool :=
  match x with
  | S754_infinity true | S754_finite true _ _ => false
  | _ => true
  end.

(** Both caches of a shape hold values that do not compare below zero. *)
Definition caches_filled (s : Shape) : bool :=
  negb (cached_area s <? 0) && negb (cached_perimeter s <? 0).

(** Neither formula of a shape gives a value that compares below zero. *)
Definition formulas_not_below_zero (s : Shape) : bool :=
  negb (calculateArea s <? 0) && negb (calculatePerimeter s <? 0).

(** * Properties *)

(** ** The accessors, case by case *)

Lemma accessor_unset (m : Metric) (s : Shape) :
  (cache m s <? 0) = true ->
  accessor m s = mkOutcome (formula m s) (store m (formula m s) s) [Ran m].
Proof.
  intros H. destruct m; cbn in H;
    unfold accessor, getArea, getPerimeter, bind, this; cbn;
    rewrite H; reflexivity.
Qed.

Lemma accessor_set (m : Metric) (s : Shape) :
  (cache m s <? 0) = false ->
  accessor m s = mkOutcome (cache m s) s [].
Proof.
  intros H. destruct m; cbn in H;
    unfold accessor, getArea, getPerimeter, bind, this; cbn;
    rewrite H; reflexivity.
Qed.

(** Case analysis on the test [cache < 0] of an accessor: the call is
    replaced by its outcome in each case. *)
Ltac accessor_cases m s L :=
  destruct (cache m s <? 0) eqn:L;
  [ rewrite (accessor_unset m s L) | rewrite (accessor_set m s L) ].

Lemma formula_derived (m : Metric) (s s' : Shape) :
  derived s' = derived s -> formula m s' = formula m s.
Proof. intros H. destruct m; cbn; rewrite H; reflexivity. Qed.

Lemma cache_store_same (m : Metric) (v : float) (s : Shape) :
  cache m (store m v s) = v.
Proof. destruct m; reflexivity. Qed.

Lemma cache_store_other (m m' : Metric) (v : float) (s : Shape) :
  m <> m' -> cache m' (store m v s) = cache m' s.
Proof. destruct m, m'; intros H; try reflexivity; contradiction. Qed.

Lemma store_frame (m : Metric) (v : float) (s : Shape) :
  name (store m v s) = name s /\ derived (store m v s) = derived s.
Proof. destruct m; split; reflexivity. Qed.

(** ** How an object moves along its history *)

Lemma advances_refl (s : Shape) : advances s s.
Proof. repeat split. intros m. left. reflexivity. Qed.

Lemma advances_trans (s1 s2 s3 : Shape) :
  advances s1 s2 -> advances s2 s3 -> advances s1 s3.
Proof.
  intros (Hn12 & Hd12 & Hc12) (Hn23 & Hd23 & Hc23).
  split; [congruence|]. split; [congruence|].
  intros m.
  destruct (Hc23 m) as [E23 | [L23 E23]], (Hc12 m) as [E12 | [L12 E12]].
  - left. congruence.
  - right. split; [assumption | congruence].
  - right. rewrite (formula_derived m s1 s2 Hd12) in E23.
    split; congruence.
  - right. rewrite (formula_derived m s1 s2 Hd12) in E23.
    split; congruence.
Qed.

Lemma Metric_eq_dec (m m' : Metric) : {m = m'} + {m <> m'}.
Proof. decide equality. Qed.

Lemma advances_accessor (m : Metric) (s : Shape) :
  advances s (after (accessor m s)).
Proof.
  accessor_cases m s L.
  - cbn [after].
    destruct (store_frame m (formula m s) s) as [Hn Hd].
    split; [assumption|]. split; [assumption|].
    intros m'. destruct (Metric_eq_dec m m') as [<- | N].
    + right. split; [assumption | apply cache_store_same].
    + left. apply cache_store_other; assumption.
  - apply advances_refl.
Qed.

Lemma getName_after (s : Shape) : after (getName s) = s.
Proof. reflexivity. Qed.

Lemma displayInfo_after (s : Shape) :
  after (displayInfo s) = after (getPerimeter (after (getArea s))).
Proof.
  unfold displayInfo, bind, this; cbn.
  destruct (derived s); reflexivity.
Qed.

Lemma processShape_after (s : Shape) :
  after (processShape s) = after (displayInfo s).
Proof. reflexivity. Qed.

Lemma advances_perform (c : Call) (s : Shape) :
  advances s (after (perform c s)).
Proof.
  assert (D : advances s (after (displayInfo s))).
  { rewrite displayInfo_after.
    apply advances_trans with (after (getArea s)).
    - apply (advances_accessor Area).
    - apply (advances_accessor Perimeter). }
  destruct c.
  - apply advances_refl.
  - apply (advances_accessor Area).
  - apply (advances_accessor Perimeter).
  - exact D.
  - exact D.
Qed.

Lemma advances_perform_all (cs : list Call) (s : Shape) :
  advances s (after (perform_all cs s)).
Proof.
  revert s. induction cs as [|c cs IH]; intros s.
  - apply advances_refl.
  - apply advances_trans with (after (perform c s)).
    + apply advances_perform.
    + apply (IH (after (perform c s))).
Qed.

(** ** What every reachable object satisfies *)

Lemma construct_cache (m : Metric) (c : Ctor) : cache m (construct c) = -1.0.
Proof. destruct m, c; reflexivity. Qed.

Lemma unset_marker_below_zero : (-1.0 <? 0) = true.
Proof. reflexivity. Qed.

Lemma history_frame (c : Ctor) (cs : list Call) :
  name (after (perform_all cs (construct c))) = name (construct c) /\
  derived (after (perform_all cs (construct c))) = derived (construct c).
Proof.
  destruct (advances_perform_all cs (construct c)) as (Hn & Hd & _).
  split; assumption.
Qed.

(** A cache holds the marker [-1.0] it was created with, or the value of
    its formula. *)
Lemma history_cache (m : Metric) (c : Ctor) (cs : list Call) :
  let s := after (perform_all cs (construct c)) in
  cache m s = -1.0 \/ cache m s = formula m s.
Proof.
  cbv zeta.
  destruct (advances_perform_all cs (construct c)) as (_ & Hd & Hc).
  rewrite (formula_derived m _ _ Hd).
  destruct (Hc m) as [E | [_ E]].
  - left. rewrite E. apply construct_cache.
  - right. exact E.
Qed.

Lemma accessor_value (m : Metric) (s : Shape) :
  cache m s = -1.0 \/ cache m s = formula m s ->
  value (accessor m s) = formula m s.
Proof.
  intros H. accessor_cases m s L.
  - reflexivity.
  - cbn [value]. destruct H as [H | H]; [|exact H].
    rewrite H, unset_marker_below_zero in L. discriminate.
Qed.

Lemma accessor_populates (m : Metric) (s : Shape) :
  cache m s = -1.0 \/ cache m s = formula m s ->
  cache m (after (accessor m s)) = formula m s.
Proof.
  intros H. accessor_cases m s L.
  - cbn [after]. apply cache_store_same.
  - cbn [after]. destruct H as [H | H]; [|exact H].
    rewrite H, unset_marker_below_zero in L. discriminate.
Qed.

(** Once a cache holds the value of its formula, it holds it in every later
    state. *)
Lemma advances_keeps_formula (m : Metric) (s s' : Shape) :
  advances s s' -> cache m s = formula m s -> cache m s' = cache m s.
Proof.
  intros (_ & _ & Hc) E.
  destruct (Hc m) as [E' | [_ E']]; congruence.
Qed.

(** ** Counting the runs of a formula *)

Lemma runs_app (m : Metric) (l1 l2 : list Event) :
  runs m (l1 ++ l2) = (runs m l1 + runs m l2)%nat.
Proof. unfold runs. rewrite filter_app, length_app. reflexivity. Qed.

Lemma runs_accessor_set (m : Metric) (s : Shape) :
  (cache m s <? 0) = false -> runs m (events (accessor m s)) = 0%nat.
Proof. intros L. rewrite (accessor_set m s L). reflexivity. Qed.

Lemma runs_accessor_other (m m' : Metric) (s : Shape) :
  m <> m' -> runs m (events (accessor m' s)) = 0%nat.
Proof.
  intros N. accessor_cases m' s L.
  - destruct m, m'; try reflexivity; contradiction.
  - reflexivity.
Qed.

Lemma runs_displayInfo (m : Metric) (s : Shape) :
  runs m (events (displayInfo s)) =
  (runs m (events (accessor Area s)) +
   runs m (events (accessor Perimeter (after (accessor Area s)))))%nat.
Proof.
  destruct s as [n ca cp d].
  destruct (ca <? 0) eqn:Ea, (cp <? 0) eqn:Ep.
  all: destruct d, m; cbn; rewrite ?Ea; cbn; rewrite ?Ep; reflexivity.
Qed.

Lemma runs_processShape (m : Metric) (s : Shape) :
  runs m (events (processShape s)) = runs m (events (displayInfo s)).
Proof. destruct m; reflexivity. Qed.

Lemma cache_accessor_other (m m' : Metric) (s : Shape) :
  m <> m' -> cache m (after (accessor m' s)) = cache m s.
Proof.
  intros N. accessor_cases m' s L.
  - cbn [after]. apply cache_store_other. congruence.
  - reflexivity.
Qed.

Lemma Area_is_not_Perimeter : Area <> Perimeter.
Proof. discriminate. Qed.

Lemma Perimeter_is_not_Area : Perimeter <> Area.
Proof. discriminate. Qed.

Lemma runs_displayInfo_set (m : Metric) (s : Shape) :
  (cache m s <? 0) = false -> runs m (events (displayInfo s)) = 0%nat.
Proof.
  intros L. rewrite runs_displayInfo. destruct m.
  - rewrite (runs_accessor_set Area s L).
    rewrite (runs_accessor_other Area Perimeter _ Area_is_not_Perimeter).
    reflexivity.
  - rewrite (runs_accessor_other Perimeter Area _ Perimeter_is_not_Area).
    rewrite (runs_accessor_set Perimeter).
    + reflexivity.
    + rewrite (cache_accessor_other Perimeter Area s Perimeter_is_not_Area).
      exact L.
Qed.

Lemma runs_perform_set (m : Metric) (c : Call) (s : Shape) :
  (cache m s <? 0) = false -> runs m (events (perform c s)) = 0%nat.
Proof.
  intros L. destruct c.
  - reflexivity.
  - change (events (perform Call_getArea s))
      with (events (accessor Area s) ++ []).
    rewrite app_nil_r. destruct m.
    + apply runs_accessor_set, L.
    + apply runs_accessor_other, Perimeter_is_not_Area.
  - change (events (perform Call_getPerimeter s))
      with (events (accessor Perimeter s) ++ []).
    rewrite app_nil_r. destruct m.
    + apply runs_accessor_other, Area_is_not_Perimeter.
    + apply runs_accessor_set, L.
  - apply runs_displayInfo_set, L.
  - rewrite runs_processShape. apply runs_displayInfo_set, L.
Qed.

(** A cache that does not compare below zero is left alone. *)
Lemma advances_keeps_set (m : Metric) (s s' : Shape) :
  advances s s' -> (cache m s <? 0) = false -> cache m s' = cache m s.
Proof.
  intros (_ & _ & Hc) L.
  destruct (Hc m) as [E | [L' _]]; [exact E | congruence].
Qed.

Lemma runs_perform_all_set (m : Metric) (cs : list Call) (s : Shape) :
  (cache m s <? 0) = false -> runs m (events (perform_all cs s)) = 0%nat.
Proof.
  revert s. induction cs as [|c cs IH]; intros s L.
  - reflexivity.
  - change (events (perform_all (c :: cs) s))
      with (events (perform c s) ++
            events (perform_all cs (after (perform c s)))).
    rewrite runs_app, (runs_perform_set m c s L), IH; [reflexivity|].
    rewrite (advances_keeps_set m s _ (advances_perform c s) L). exact L.
Qed.

Lemma untouched_perform (m : Metric) (c : Call) (s : Shape) :
  touches m c = false -> cache m (after (perform c s)) = cache m s.
Proof.
  intros T. destruct c, m; try discriminate T; try reflexivity.
  - apply (cache_accessor_other Perimeter Area), Perimeter_is_not_Area.
  - apply (cache_accessor_other Area Perimeter), Area_is_not_Perimeter.
Qed.

Lemma untouched_perform_all (m : Metric) (cs : list Call) (s : Shape) :
  existsb (touches m) cs = false ->
  cache m (after (perform_all cs s)) = cache m s.
Proof.
  revert s. induction cs as [|c cs IH]; intros s T.
  - reflexivity.
  - cbn [existsb] in T. apply orb_false_iff in T. destruct T as [Tc Tcs].
    change (after (perform_all (c :: cs) s))
      with (after (perform_all cs (after (perform c s)))).
    rewrite (IH _ Tcs). apply untouched_perform, Tc.
Qed.

(** ** Memoization *)

(** How far memoization goes. The first call of [getArea()] on a shape (no
    earlier call read the area) runs the formula once and stores its value,
    and every later call returns that same stored value; when the value of
    the formula does not compare below zero (a non-negative number or
    not-a-number), no later call, of any member function, runs the formula
    again. Likewise for [getPerimeter()]. *)
Theorem accessor_memoizes (m : Metric) (c : Ctor) (before between : list Call) :
  let s0 := after (perform_all before (construct c)) in
  let first := accessor m s0 in
  let later := perform_all between (after first) in
  let again := accessor m (after later) in
  existsb (touches m) before = false ->
  (events first = [Ran m] /\
   value first = formula m s0 /\
   cache m (after first) = value first /\
   value again = cache m (after first) /\
   value again = value first) /\
  ((formula m s0 <? 0) = false ->
   runs m (events later) = 0%nat /\
   events again = [] /\
   after again = after later).
Proof.
  cbv zeta. intros T.
  set (s0 := after (perform_all before (construct c))).
  assert (U : (cache m s0 <? 0) = true).
  { unfold s0. rewrite (untouched_perform_all m before _ T), construct_cache.
    apply unset_marker_below_zero. }
  rewrite (accessor_unset m s0 U). cbn [events value after].
  set (s1 := store m (formula m s0) s0).
  assert (C1 : cache m s1 = formula m s0) by apply cache_store_same.
  assert (A : advances s1 (after (perform_all between s1)))
    by apply advances_perform_all.
  assert (F1 : formula m s1 = formula m s0).
  { apply formula_derived. apply (store_frame m (formula m s0) s0). }
  assert (C2 : cache m (after (perform_all between s1)) = cache m s1).
  { apply advances_keeps_formula; [exact A | congruence]. }
  assert (F2 : formula m (after (perform_all between s1)) = formula m s1).
  { apply formula_derived. apply A. }
  assert (V : value (accessor m (after (perform_all between s1)))
              = formula m s0).
  { rewrite accessor_value; [congruence | right; congruence]. }
  split.
  - repeat split; congruence.
  - intros L.
    assert (L1 : (cache m s1 <? 0) = false) by (rewrite C1; exact L).
    assert (L2 : (cache m (after (perform_all between s1)) <? 0) = false)
      by (rewrite C2; exact L1).
    split; [apply runs_perform_all_set, L1|].
    rewrite (accessor_set m _ L2). split; reflexivity.
Qed.

Lemma accessor_memoizes_witness :
  let s0 :=
    after (perform_all [Call_getName; Call_getPerimeter]
                       (construct (Ctor_Circle 4.0))) in
  let first := accessor Area s0 in
  let later := perform_all [Call_displayInfo; Call_getArea] (after first) in
  let again := accessor Area (after later) in
  (events first = [Ran Area] /\
   value first = formula Area s0 /\
   cache Area (after first) = value first /\
   value again = cache Area (after first) /\
   value again = value first) /\
  (runs Area (events later) = 0%nat /\
   events again = [] /\
   after again = after later).
Proof.
  cbv zeta.
  destruct (accessor_memoizes Area (Ctor_Circle 4.0)
              [Call_getName; Call_getPerimeter]
              [Call_displayInfo; Call_getArea] eq_refl) as [H1 H2].
  split; [exact H1 | exact (H2 eq_refl)].
Defined.

(** C1. Memoization breaks on a negative result. The area of
    [Rectangle(-2, 3)] is [-6]; [getArea()] stores it, but the stored [-6]
    compares below zero like the marker [-1.0] of an empty cache, so the
    second call of [getArea()] runs the formula again: two calls, two
    runs, where the comments of the class promise a cached value. *)
Lemma negative_area_is_recomputed :
  let s := new_Rectangle (-2.0) 3.0 in
  events (getArea s) = [Ran_calculateArea] /\
  events (getArea (after (getArea s))) = [Ran_calculateArea] /\
  runs Area (events (perform_all [Call_getArea; Call_getArea] s)) = 2%nat.
Proof. repeat split. Qed.

(** C10. Whatever was called before, [getArea()] returns what
    [calculateArea()] returns on the members the shape was built with, and
    [getPerimeter()] what [calculatePerimeter()] returns; negative values
    and not-a-number are no exception. *)
Theorem accessors_are_value_transparent (c : Ctor) (cs : list Call) :
  let s := after (perform_all cs (construct c)) in
  value (getArea s) = calculateArea s /\
  value (getPerimeter s) = calculatePerimeter s /\
  calculateArea s = calculateArea (construct c) /\
  calculatePerimeter s = calculatePerimeter (construct c).
Proof.
  cbv zeta.
  destruct (history_frame c cs) as [_ Hd].
  repeat split.
  - apply (accessor_value Area), (history_cache Area).
  - apply (accessor_value Perimeter), (history_cache Perimeter).
  - apply (formula_derived Area _ _ Hd).
  - apply (formula_derived Perimeter _ _ Hd).
Qed.

(** A negative area is returned as it is by every call. *)
Example negative_area_is_returned :
  let s := new_Rectangle (-2.0) 3.0 in
  calculateArea s = -6.0 /\
  value (getArea s) = -6.0 /\
  value (getArea (after (getArea s))) = -6.0 /\
  value (getArea (after (displayInfo (after (getArea s))))) = -6.0.
Proof. repeat split. Qed.

(** Not-a-number is stored and returned by every call; it does not compare
    below zero, so it is computed once. *)
Example nan_area_is_returned :
  let s := new_Triangle 1.0 1.0 10.0 in
  calculateArea s = nan /\
  value (getArea s) = nan /\
  value (getArea (after (getArea s))) = nan /\
  events (getArea (after (getArea s))) = [].
Proof. repeat split. Qed.

(** C4. Once a cache has been set, by a call of its accessor or because it
    no longer holds the marker of an empty cache, it holds the same value
    after any further sequence of calls; name and derived members are those
    given at construction. *)
Theorem cached_value_never_changes
  (m : Metric) (c : Ctor) (before later : list Call) :
  let s := after (perform_all before (construct c)) in
  let populated := after (accessor m s) in
  cache m (after (perform_all later populated)) = cache m populated /\
  (cache m s <> -1.0 -> cache m (after (perform_all later s)) = cache m s) /\
  ((cache m s <? 0) = false ->
   cache m (after (perform_all later s)) = cache m s) /\
  derived (after (perform_all later s)) = derived (construct c) /\
  name (after (perform_all later s)) = name (construct c).
Proof.
  cbv zeta.
  set (s := after (perform_all before (construct c))).
  pose proof (history_cache m c before) as I. cbv zeta in I. fold s in I.
  pose proof (advances_perform_all later s) as A.
  destruct (history_frame c before) as [Hn Hd]. fold s in Hn, Hd.
  split; [|split; [|split; [|split]]].
  - apply advances_keeps_formula; [apply advances_perform_all|].
    rewrite (accessor_populates m s I).
    symmetry. apply formula_derived. apply (advances_accessor m s).
  - intros N. apply advances_keeps_formula; [exact A|].
    destruct I as [I | I]; [contradiction | exact I].
  - intros L. apply advances_keeps_set; assumption.
  - destruct A as (_ & Hd' & _). congruence.
  - destruct A as (Hn' & _ & _). congruence.
Qed.

Lemma cached_value_never_changes_witness :
  let s := after (perform_all [Call_displayInfo]
                              (construct (Ctor_Rectangle 5.0 3.0))) in
  let populated := after (accessor Area s) in
  let later := [Call_getArea; Call_processShape] in
  cache Area (after (perform_all later populated)) = cache Area populated /\
  cache Area (after (perform_all later s)) = cache Area s /\
  derived (after (perform_all later s))
  = derived (construct (Ctor_Rectangle 5.0 3.0)) /\
  name (after (perform_all later s))
  = name (construct (Ctor_Rectangle 5.0 3.0)).
Proof.
  cbv zeta.
  destruct (cached_value_never_changes Area (Ctor_Rectangle 5.0 3.0)
              [Call_displayInfo] [Call_getArea; Call_processShape])
    as (H1 & H2 & H3 & H4 & H5).
  split; [exact H1|]. split; [|split; [exact H4 | exact H5]].
  apply H2. intros E.
  apply (f_equal (fun x => x <? 0)) in E.
  vm_compute in E. discriminate E.
Defined.

(** C9. [getArea()] leaves the object as it was except for [cached_area],
    which receives the returned value, and writes nothing to the output;
    [getPerimeter()] does the same with [cached_perimeter]. *)
Theorem accessors_touch_only_their_cache (s : Shape) :
  (after (getArea s) =
     {| name := name s; cached_area := value (getArea s);
        cached_perimeter := cached_perimeter s; derived := derived s |} /\
   outputs (events (getArea s)) = [] /\
   runs Perimeter (events (getArea s)) = 0%nat) /\
  (after (getPerimeter s) =
     {| name := name s; cached_area := cached_area s;
        cached_perimeter := value (getPerimeter s); derived := derived s |} /\
   outputs (events (getPerimeter s)) = [] /\
   runs Area (events (getPerimeter s)) = 0%nat).
Proof.
  destruct s as [n ca cp d].
  unfold getArea, getPerimeter, bind, this; cbn.
  destruct (ca <? 0), (cp <? 0); repeat split.
Qed.

(** ** Aggregate statistics *)

Lemma getPerimeter_after_getArea (s : Shape) :
  value (getPerimeter (after (getArea s))) = value (getPerimeter s).
Proof.
  change (value (accessor Perimeter (after (accessor Area s)))
          = value (accessor Perimeter s)).
  destruct (cache Area s <? 0) eqn:La.
  - rewrite (accessor_unset Area s La). cbn [after].
    destruct (cache Perimeter s <? 0) eqn:Lp.
    + rewrite (accessor_unset Perimeter s Lp).
      rewrite accessor_unset by exact Lp. reflexivity.
    + rewrite (accessor_set Perimeter s Lp).
      rewrite accessor_set by exact Lp. reflexivity.
  - rewrite (accessor_set Area s La). reflexivity.
Qed.

Lemma stats_loop_sums (shapes : list Shape) (stats : ShapeStats) :
  total_area (value (stats_loop stats shapes)) =
    fold_left PrimFloat.add (map (fun s => value (getArea s)) shapes)
              (total_area stats) /\
  total_perimeter (value (stats_loop stats shapes)) =
    fold_left PrimFloat.add (map (fun s => value (getPerimeter s)) shapes)
              (total_perimeter stats) /\
  count (value (stats_loop stats shapes)) = count stats.
Proof.
  revert stats. induction shapes as [|shape rest IH]; intros stats.
  - repeat split.
  - cbn [stats_loop value map fold_left].
    match goal with
    | |- context [stats_loop ?st rest] => destruct (IH st) as (Ha & Hp & Hc)
    end.
    rewrite Ha, Hp, Hc. cbn [total_area total_perimeter count].
    rewrite getPerimeter_after_getArea. repeat split.
Qed.

(** C3. [calculateShapeStats] returns the sum of the areas that
    [getArea()] gives, the sum of the perimeters that [getPerimeter()]
    gives, and the number of shapes. For the five shapes of [main], before
    or after they were displayed, the total area is
    [15 + PI*16 + 6 + 15 + PI*6.25], which lies between 105.895 and
    105.905, and the count is 5. *)
Theorem calculateShapeStats_sums :
  (forall shapes : list Shape,
     let stats := value (calculateShapeStats shapes) in
     total_area stats = sum_doubles (map (fun s => value (getArea s)) shapes) /\
     total_perimeter stats =
       sum_doubles (map (fun s => value (getPerimeter s)) shapes) /\
     count stats = List.length shapes) /\
  (let stats := value (calculateShapeStats main_shapes) in
   total_area stats
   = 15.0 + Constants.PI * 16.0 + 6.0 + 15.0 + Constants.PI * 6.25 /\
   count stats = 5%nat /\
   value (calculateShapeStats (after (display_all main_shapes))) = stats /\
   exists q : Q,
     exact (total_area stats) = Some q /\
     (105895 # 1000 <= q)%Q /\ (q < 105905 # 1000)%Q).
Proof.
  split.
  - intros shapes. cbv zeta. unfold calculateShapeStats, sum_doubles.
    apply (stats_loop_sums shapes).
  - cbv zeta. repeat split.
    eexists. split; [vm_compute; reflexivity|].
    split; [unfold Qle | unfold Qlt]; cbn; lia.
Qed.

(** In [main] the shapes have been displayed before the statistics are
    taken: all five areas and perimeters come from the caches, and neither
    formula runs during [calculateShapeStats]. *)
Example main_statistics_come_from_the_caches :
  let displayed := after (display_all main_shapes) in
  runs Area (events (display_all main_shapes)) = 5%nat /\
  runs Perimeter (events (display_all main_shapes)) = 5%nat /\
  events (calculateShapeStats displayed) = [] /\
  after (calculateShapeStats displayed) = displayed /\
  after main = displayed /\
  value main = 0%Z.
Proof. repeat split. Qed.

(** ** The formulas *)

(** C5. A rectangle built from [w] and [h] has area [w * h] and perimeter
    [2 * (w + h)], also through the accessors; nothing is rejected, and zero
    or negative dimensions go through the same arithmetic. *)
Theorem Rectangle_formulas :
  (forall w h : float,
     calculateArea (new_Rectangle w h) = w * h /\
     calculatePerimeter (new_Rectangle w h) = 2.0 * (w + h) /\
     value (getArea (new_Rectangle w h)) = w * h /\
     value (getPerimeter (new_Rectangle w h)) = 2.0 * (w + h)) /\
  (calculateArea (new_Rectangle (-2.0) 3.0) = -6.0 /\
   calculatePerimeter (new_Rectangle (-2.0) 3.0) = 2.0) /\
  (calculateArea (new_Rectangle 0.0 5.0) = 0.0 /\
   calculatePerimeter (new_Rectangle 0.0 5.0) = 10.0) /\
  (calculateArea (new_Rectangle (-2.0) (-3.0)) = 6.0 /\
   calculatePerimeter (new_Rectangle (-2.0) (-3.0)) = -10.0).
Proof. repeat split. Qed.

(** C8. The triangle with sides 3, 4, 5 has area exactly [6.0] and
    perimeter exactly [12.0], from the formulas and from the accessors. *)
Theorem Triangle_3_4_5 :
  calculateArea (new_Triangle 3.0 4.0 5.0) = 6.0 /\
  calculatePerimeter (new_Triangle 3.0 4.0 5.0) = 12.0 /\
  value (getArea (new_Triangle 3.0 4.0 5.0)) = 6.0 /\
  value (getPerimeter (new_Triangle 3.0 4.0 5.0)) = 12.0.
Proof. repeat split. Qed.

(** [PI] is the double that the literal [3.14159265358979323846] denotes:
    the literal lies between [PI] and the next double above it, and nearer
    to [PI]. (Rounding to nearest and truncation agree here.) *)
Lemma PI_is_the_nearest_double :
  let literal := (314159265358979323846 # 100000000000000000000)%Q in
  exists below p above : Q,
    exact (next_down Constants.PI) = Some below /\
    exact Constants.PI = Some p /\
    exact (next_up Constants.PI) = Some above /\
    (below < p)%Q /\ (p <= literal)%Q /\ (literal < above)%Q /\
    (literal - p < above - literal)%Q.
Proof.
  cbv zeta. do 3 eexists.
  split; [vm_compute; reflexivity|].
  split; [vm_compute; reflexivity|].
  split; [vm_compute; reflexivity|].
  repeat split; red; cbn; lia.
Qed.

(** C6. A circle built from [r] has area [PI * (r * r)] and circumference
    [2 * PI * r] in double arithmetic, also through the accessors, and [PI]
    is the double nearest to 3.14159265358979323846. *)
Theorem Circle_formulas :
  (forall r : float,
     calculateArea (new_Circle r) = Constants.PI * (r * r) /\
     calculatePerimeter (new_Circle r) = 2.0 * Constants.PI * r /\
     value (getArea (new_Circle r)) = Constants.PI * (r * r) /\
     value (getPerimeter (new_Circle r)) = 2.0 * Constants.PI * r) /\
  (let literal := (314159265358979323846 # 100000000000000000000)%Q in
   exists p above : Q,
     exact Constants.PI = Some p /\
     exact (next_up Constants.PI) = Some above /\
     (p <= literal)%Q /\ (literal < above)%Q /\
     (literal - p < above - literal)%Q).
Proof.
  split; [repeat split|].
  destruct PI_is_the_nearest_double as (below & p & above & H).
  exists p, above. tauto.
Qed.

(** ** Binary64 facts

    The constructor of [Triangle] halves with [* 0.5]; the square root of a
    negative double is not-a-number. Both are read off the specification
    of the binary64 operations. *)

Lemma sqrt_of_negative (x : float) : (x <? 0) = true -> sqrt x = nan.
Proof.
  intros H.
  rewrite ltb_spec in H.
  rewrite <- (SF2Prim_Prim2SF (sqrt x)), sqrt_spec.
  destruct (Prim2SF x) as [s|s| |s m e]; try destruct s; cbn in *;
    try discriminate; reflexivity.
Qed.

Lemma fexp_unfold z : fexp prec emax z = Z.max (z - 53) (-1074).
Proof. reflexivity. Qed.

Lemma bounded_inv m e :
  bounded prec emax m e = true ->
  (Z.max (Zpos (digits2_pos m) + e - 53) (-1074) = e /\ e <= 971)%Z.
Proof.
  unfold bounded, canonical_mantissa. rewrite fexp_unfold.
  intros H. apply andb_true_iff in H. destruct H as [H1 H2].
  apply Z.eqb_eq in H1. apply Z.leb_le in H2. change (emax - prec)%Z with 971%Z in H2. lia.
Qed.

Lemma shr_zero mrs e n : (n <= 0)%Z -> shr mrs e n = (mrs, e).
Proof. destruct n; try reflexivity. lia. Qed.

Lemma round_canonical sx m e :
  (Z.max (Zpos (digits2_pos m) + e - 53) (-1074) = e)%Z -> (e <= 971)%Z ->
  binary_round_aux prec emax sx (Zpos m) e loc_Exact = S754_finite sx m e.
Proof.
  intros C B. unfold binary_round_aux, shr_fexp. rewrite !fexp_unfold.
  cbn [Zdigits2 shr_record_of_loc].
  rewrite C, Z.sub_diag. cbn [shr shr_m loc_of_shr_record round_nearest_even Zdigits2].
  rewrite fexp_unfold, C, Z.sub_diag. cbn [shr shr_m].
  change (emax - prec)%Z with 971%Z.
  apply Z.leb_le in B. rewrite B. reflexivity.
Qed.

Lemma div_eucl_pair a b : Z.div_eucl a b = (a / b, a mod b)%Z.
Proof. unfold Z.div, Z.modulo. destruct (Z.div_eucl a b); reflexivity. Qed.

Lemma div_eucl_unique b q r :
  (0 <= r < b)%Z -> Z.div_eucl (b * q + r) b = (q, r).
Proof.
  intros H. rewrite div_eucl_pair. f_equal.
  - symmetry. apply (Z.div_unique _ b q r); [left; exact H | reflexivity].
  - symmetry. apply (Z.mod_unique _ b q r); [left; exact H | reflexivity].
Qed.

Lemma digits_times_2p52 m :
  Zpos (digits2_pos (m * 4503599627370496)) = (Zpos (digits2_pos m) + 52)%Z.
Proof. rewrite Pos.mul_comm. cbn [Pos.mul digits2_pos]. lia. Qed.

Lemma shr_52 m :
  SpecFloat.iter_pos shr_1 52 {| shr_m := Zpos (m * 4503599627370496); shr_r := false; shr_s := false |}
  = {| shr_m := Zpos m; shr_r := false; shr_s := false |}.
Proof. rewrite Pos.mul_comm. reflexivity. Qed.

Lemma shr_53 m :
  SpecFloat.iter_pos shr_1 53 {| shr_m := Zpos (m * 4503599627370496); shr_r := false; shr_s := false |}
  = shr_1 {| shr_m := Zpos m; shr_r := false; shr_s := false |}.
Proof. rewrite Pos.mul_comm. reflexivity. Qed.

(** The first rounding stage of [x * 0.5]: the product of the mantissas is
    shifted back by 52 bits, or by 53 at the least exponent. *)
Lemma mul_stage m e :
  bounded prec emax m e = true ->
  shr_fexp prec emax (Zpos (m * 4503599627370496)) (e + -53) loc_Exact =
  if (e =? -1074)%Z
  then (shr_1 {| shr_m := Zpos m; shr_r := false; shr_s := false |}, (-1074)%Z)
  else ({| shr_m := Zpos m; shr_r := false; shr_s := false |}, (e - 1)%Z).
Proof.
  intros H. apply bounded_inv in H. destruct H as [C B].
  unfold shr_fexp. rewrite fexp_unfold. cbn [Zdigits2 shr_record_of_loc].
  rewrite digits_times_2p52.
  destruct (e =? -1074)%Z eqn:E.
  - apply Z.eqb_eq in E. subst e.
    replace (Z.max (Z.pos (digits2_pos m) + 52 + (-1074 + -53) - 53) (-1074) - (-1074 + -53))%Z
      with 53%Z by lia.
    cbn [shr]. rewrite shr_53. reflexivity.
  - apply Z.eqb_neq in E.
    replace (Z.max (Z.pos (digits2_pos m) + 52 + (e + -53) - 53) (-1074) - (e + -53))%Z
      with 52%Z by lia.
    cbn [shr]. rewrite shr_52. f_equal. lia.
Qed.

(** The first rounding stage of [x / 2] ends in the same place. *)
Lemma div_stage m e :
  bounded prec emax m e = true ->
  (let '(mz, ez, lz) :=
     SFdiv_core_binary prec emax (Zpos m) e (Zpos 4503599627370496) (-51) in
   shr_fexp prec emax mz ez lz) =
  if (e =? -1074)%Z
  then (shr_1 {| shr_m := Zpos m; shr_r := false; shr_s := false |}, (-1074)%Z)
  else ({| shr_m := Zpos m; shr_r := false; shr_s := false |}, (e - 1)%Z).
Proof.
  intros H. apply bounded_inv in H. destruct H as [C B].
  unfold SFdiv_core_binary. cbn [Zdigits2].
  change (digits2_pos 4503599627370496) with 53%positive.
  rewrite fexp_unfold.
  destruct (e =? -1074)%Z eqn:E; [|destruct (e =? -1073)%Z eqn:E'].
  - apply Z.eqb_eq in E. subst e.
    replace (Z.min (Z.max (Z.pos (digits2_pos m) + -1074 - (53 + -51) - 53) (-1074)) (-1074 - -51))%Z
      with (-1074)%Z by lia.
    change (-1074 - -51 - -1074)%Z with 51%Z. cbv beta iota zeta.
    destruct m as [p|p|].
    + replace (Z.shiftl (Z.pos p~1) 51) with (4503599627370496 * Z.pos p + 2251799813685248)%Z
        by (cbn; lia).
      rewrite div_eucl_unique by lia.
      unfold shr_fexp. rewrite fexp_unfold. cbn [Zdigits2]. cbn [digits2_pos] in C.
      replace (Z.max (Z.pos (digits2_pos p) + -1074 - 53) (-1074) - -1074)%Z with 0%Z by lia.
      reflexivity.
    + replace (Z.shiftl (Z.pos p~0) 51) with (4503599627370496 * Z.pos p + 0)%Z
        by (cbn; lia).
      rewrite div_eucl_unique by lia.
      unfold shr_fexp. rewrite fexp_unfold. cbn [Zdigits2]. cbn [digits2_pos] in C.
      replace (Z.max (Z.pos (digits2_pos p) + -1074 - 53) (-1074) - -1074)%Z with 0%Z by lia.
      reflexivity.
    + reflexivity.
  - apply Z.eqb_eq in E'. subst e.
    assert (D : Z.pos (digits2_pos m) = 53%Z) by lia. rewrite D.
    change (Z.min (Z.max (53 + -1073 - (53 + -51) - 53) (-1074)) (-1073 - -51))%Z
      with (-1074)%Z.
    change (-1073 - -51 - -1074)%Z with 52%Z. cbv beta iota zeta.
    replace (Z.shiftl (Z.pos m) 52) with (4503599627370496 * Z.pos m + 0)%Z
      by (cbn; lia).
    rewrite div_eucl_unique by lia.
    unfold shr_fexp. rewrite fexp_unfold. cbn [Zdigits2]. rewrite D.
    reflexivity.
  - apply Z.eqb_neq in E. apply Z.eqb_neq in E'.
    assert (D : Z.pos (digits2_pos m) = 53%Z) by lia. rewrite D.
    replace (Z.min (Z.max (53 + e - (53 + -51) - 53) (-1074)) (e - -51))%Z
      with (e - 2)%Z by lia.
    replace (e - -51 - (e - 2))%Z with 53%Z by lia. cbv beta iota zeta.
    replace (Z.shiftl (Z.pos m) 53) with (4503599627370496 * Z.pos m~0 + 0)%Z
      by (cbn; lia).
    rewrite div_eucl_unique by lia.
    unfold shr_fexp. rewrite fexp_unfold.
    cbn [Zdigits2 digits2_pos new_location]. 
    replace (Z.pos (Pos.succ (digits2_pos m))) with 54%Z by lia.
    replace (Z.max (54 + (e - 2) - 53) (-1074) - (e - 2))%Z with 1%Z by lia.
    cbn. f_equal. lia.
Qed.

(** Multiplying a double by [0.5] and dividing it by [2] give the same
    double, for every double. *)
Lemma half_is_div_2 (x : float) : x * 0.5 = x / 2.
Proof.
  apply Prim2SF_inj. rewrite mul_spec, div_spec.
  change (Prim2SF 0.5) with (S754_finite false 4503599627370496 (-53)).
  change (Prim2SF 2) with (S754_finite false 4503599627370496 (-51)).
  pose proof (Prim2SF_valid x) as V.
  destruct (Prim2SF x) as [s|s| |s m e]; try reflexivity.
  cbn [valid_binary] in V.
  unfold SF64mul, SF64div, SFmul, SFdiv.
  pose proof (div_stage m e V) as D.
  destruct (SFdiv_core_binary prec emax (Z.pos m) e (Z.pos 4503599627370496) (-51))
    as [[mz ez] lz].
  unfold binary_round_aux. rewrite (mul_stage m e V), D. reflexivity.
Qed.

(** ** Triangles *)

(** C7. A triangle built from [a], [b], [c] stores the semi-perimeter
    [s = (a + b + c) / 2]; its area is [sqrt (s * (s - a) * (s - b) * (s - c))]
    and its perimeter [2 * s], also through the accessors. *)
Theorem Triangle_formulas (a b c : float) :
  let s := (a + b + c) / 2 in
  derived (new_Triangle a b c)
  = IsTriangle {| side1 := a; side2 := b; side3 := c; semi_perimeter := s |} /\
  calculateArea (new_Triangle a b c) = sqrt (s * (s - a) * (s - b) * (s - c)) /\
  calculatePerimeter (new_Triangle a b c) = 2.0 * s /\
  value (getArea (new_Triangle a b c)) = sqrt (s * (s - a) * (s - b) * (s - c)) /\
  value (getPerimeter (new_Triangle a b c)) = 2.0 * s.
Proof.
  cbv zeta. rewrite <- half_is_div_2. repeat split.
Qed.

(** C2 (as amended). When the radicand of Heron's formula, computed in
    doubles from the stored semi-perimeter, is negative (sides 1, 1, 10 give
    -600), [calculateArea] returns not-a-number; [getArea()] returns it too,
    stores it, writes nothing, and keeps returning it. The result is a plain
    [double]: there is no other channel by which an error could be told. *)
Theorem negative_radicand_gives_nan (a b c : float) :
  let s := (a + b + c) * 0.5 in
  (s * (s - a) * (s - b) * (s - c) <? 0) = true ->
  calculateArea (new_Triangle a b c) = nan /\
  value (getArea (new_Triangle a b c)) = nan /\
  cached_area (after (getArea (new_Triangle a b c))) = nan /\
  outputs (events (getArea (new_Triangle a b c))) = [] /\
  value (getArea (after (getArea (new_Triangle a b c)))) = nan.
Proof.
  cbv zeta. intros H.
  assert (N : calculateArea (new_Triangle a b c) = nan)
    by exact (sqrt_of_negative _ H).
  assert (V : value (getArea (new_Triangle a b c)) = nan) by exact N.
  assert (S : cached_area (after (getArea (new_Triangle a b c))) = nan)
    by exact N.
  split; [exact N|]. split; [exact V|]. split; [exact S|].
  split; [reflexivity|].
  change (getArea (after (getArea (new_Triangle a b c))))
    with (accessor Area (after (accessor Area (new_Triangle a b c)))).
  rewrite accessor_set; [exact S|].
  change (cache Area (after (accessor Area (new_Triangle a b c))))
    with (cached_area (after (getArea (new_Triangle a b c)))).
  rewrite S. reflexivity.
Qed.

Lemma negative_radicand_gives_nan_witness :
  (let s := (1.0 + 1.0 + 10.0) * 0.5 in
   s * (s - 1.0) * (s - 1.0) * (s - 10.0) = -600.0) /\
  calculateArea (new_Triangle 1.0 1.0 10.0) = nan /\
  value (getArea (new_Triangle 1.0 1.0 10.0)) = nan /\
  cached_area (after (getArea (new_Triangle 1.0 1.0 10.0))) = nan /\
  outputs (events (getArea (new_Triangle 1.0 1.0 10.0))) = [] /\
  value (getArea (after (getArea (new_Triangle 1.0 1.0 10.0)))) = nan.
Proof.
  split; [reflexivity|].
  apply (negative_radicand_gives_nan 1.0 1.0 10.0). reflexivity.
Defined.

(** C2 as stated fails: the positive sides [2^-600], [2^-600], [2^-598]
    violate the triangle inequality (the third is twice the sum of the other
    two), yet the product [s * (s - a)] underflows to zero, the radicand is
    [-0.0], which is not below zero, and the area is [-0.0], not
    not-a-number. *)
Lemma tiny_degenerate_triangle_has_zero_area :
  let a := 0x1p-600 in
  let c := 0x1p-598 in
  let s := (a + a + c) * 0.5 in
  (0 <? a) = true /\
  (a + a <? c) = true /\
  s * (s - a) = 0.0 /\
  s * (s - a) * (s - a) * (s - c) = -0.0 /\
  (s * (s - a) * (s - a) * (s - c) <? 0) = false /\
  calculateArea (new_Triangle a a c) = -0.0 /\
  is_nan (calculateArea (new_Triangle a a c)) = false /\
  value (getArea (new_Triangle a a c)) = -0.0.
Proof. repeat split. Qed.

(** Three negative sides violate the triangle inequality as well, and give
    the area of the 3-4-5 triangle. *)
Example negative_sides_give_plausible_area :
  (-3.0 + -4.0 <? -5.0) = true /\
  calculateArea (new_Triangle (-3.0) (-4.0) (-5.0)) = 6.0 /\
  calculatePerimeter (new_Triangle (-3.0) (-4.0) (-5.0)) = -12.0.
Proof. repeat split. Qed.

(** * Further properties *)

(** ** What one call does to a cache and to the count of runs *)

Lemma runs_accessor (m : Metric) (s : Shape) :
  runs m (events (accessor m s)) = if cache m s <? 0 then 1%nat else 0%nat.
Proof. accessor_cases m s L; destruct m; reflexivity. Qed.

Lemma cache_accessor (m : Metric) (s : Shape) :
  cache m (after (accessor m s))
  = if cache m s <? 0 then formula m s else cache m s.
Proof.
  accessor_cases m s L; cbn [after]; [apply cache_store_same | reflexivity].
Qed.

Lemma derived_accessor (m : Metric) (s : Shape) :
  derived (after (accessor m s)) = derived s.
Proof. apply (advances_accessor m s). Qed.

Lemma runs_perform (m : Metric) (c : Call) (s : Shape) :
  runs m (events (perform c s))
  = if touches m c && (cache m s <? 0) then 1%nat else 0%nat.
Proof.
  assert (D : runs m (events (displayInfo s))
              = if cache m s <? 0 then 1%nat else 0%nat).
  { rewrite runs_displayInfo. destruct m.
    - rewrite (runs_accessor Area s).
      rewrite (runs_accessor_other Area Perimeter _ Area_is_not_Perimeter).
      apply Nat.add_0_r.
    - rewrite (runs_accessor_other Perimeter Area _ Perimeter_is_not_Area).
      rewrite (runs_accessor Perimeter).
      rewrite (cache_accessor_other Perimeter Area s Perimeter_is_not_Area).
      reflexivity. }
  destruct c.
  - destruct m; reflexivity.
  - change (events (perform Call_getArea s))
      with (events (accessor Area s) ++ []).
    rewrite app_nil_r. destruct m.
    + apply (runs_accessor Area).
    + apply runs_accessor_other, Perimeter_is_not_Area.
  - change (events (perform Call_getPerimeter s))
      with (events (accessor Perimeter s) ++ []).
    rewrite app_nil_r. destruct m.
    + apply runs_accessor_other, Area_is_not_Perimeter.
    + apply (runs_accessor Perimeter).
  - destruct m; exact D.
  - rewrite runs_processShape. destruct m; exact D.
Qed.

Lemma cache_perform (m : Metric) (c : Call) (s : Shape) :
  cache m (after (perform c s))
  = if touches m c && (cache m s <? 0) then formula m s else cache m s.
Proof.
  assert (D : cache m (after (displayInfo s))
              = if cache m s <? 0 then formula m s else cache m s).
  { rewrite displayInfo_after.
    change (after (getPerimeter (after (getArea s))))
      with (after (accessor Perimeter (after (accessor Area s)))).
    destruct m.
    - rewrite (cache_accessor_other Area Perimeter _ Area_is_not_Perimeter).
      apply (cache_accessor Area).
    - rewrite (cache_accessor Perimeter).
      rewrite (cache_accessor_other Perimeter Area s Perimeter_is_not_Area).
      rewrite (formula_derived Perimeter s _ (derived_accessor Area s)).
      reflexivity. }
  destruct c.
  - destruct m; reflexivity.
  - destruct m.
    + apply (cache_accessor Area).
    + apply (cache_accessor_other Perimeter Area), Perimeter_is_not_Area.
  - destruct m.
    + apply (cache_accessor_other Area Perimeter), Area_is_not_Perimeter.
    + apply (cache_accessor Perimeter).
  - destruct m; exact D.
  - destruct m; exact D.
Qed.

Lemma formula_perform (m : Metric) (c : Call) (s : Shape) :
  formula m (after (perform c s)) = formula m s.
Proof. apply formula_derived. apply (advances_perform c s). Qed.

Lemma events_perform_all_cons (c : Call) (cs : list Call) (s : Shape) :
  events (perform_all (c :: cs) s)
  = events (perform c s) ++ events (perform_all cs (after (perform c s))).
Proof. reflexivity. Qed.

(** A value below zero never fills the cache: every call that reads the
    metric runs the formula. *)
Lemma runs_when_negative (m : Metric) (cs : list Call) (s : Shape) :
  (cache m s <? 0) = true -> (formula m s <? 0) = true ->
  runs m (events (perform_all cs s)) = List.length (filter (touches m) cs).
Proof.
  revert s. induction cs as [|c cs IH]; intros s L F; [reflexivity|].
  rewrite events_perform_all_cons, runs_app, runs_perform, L, andb_true_r.
  rewrite IH.
  - cbn [filter]. destruct (touches m c); reflexivity.
  - rewrite cache_perform, L, andb_true_r. destruct (touches m c); assumption.
  - rewrite formula_perform. exact F.
Qed.

(** A value not below zero fills the cache at the first call that reads
    the metric. *)
Lemma runs_when_not_negative (m : Metric) (cs : list Call) (s : Shape) :
  (cache m s <? 0) = true -> (formula m s <? 0) = false ->
  runs m (events (perform_all cs s))
  = if existsb (touches m) cs then 1%nat else 0%nat.
Proof.
  revert s. induction cs as [|c cs IH]; intros s L F; [reflexivity|].
  rewrite events_perform_all_cons, runs_app, runs_perform, L, andb_true_r.
  cbn [existsb]. destruct (touches m c) eqn:T; cbn [orb].
  - rewrite runs_perform_all_set; [reflexivity|].
    rewrite cache_perform, T, L. exact F.
  - rewrite IH; [reflexivity| |].
    + rewrite cache_perform, T. exact L.
    + rewrite formula_perform. exact F.
Qed.

Lemma run_count (m : Metric) (c : Ctor) (cs : list Call) :
  runs m (events (perform_all cs (construct c)))
  = if formula m (construct c) <? 0
    then List.length (filter (touches m) cs)
    else if existsb (touches m) cs then 1%nat else 0%nat.
Proof.
  assert (L : (cache m (construct c) <? 0) = true)
    by (rewrite construct_cache; apply unset_marker_below_zero).
  destruct (formula m (construct c) <? 0) eqn:F.
  - apply runs_when_negative; assumption.
  - apply runs_when_not_negative; assumption.
Qed.

(** X1. Over the whole life of a shape, the formula of a metric runs once
    per call that reads the metric when its value compares below zero, and
    otherwise once in all if any call reads the metric and never if none
    does. *)
Theorem formula_runs_over_a_history (m : Metric) (c : Ctor) (cs : list Call) :
  runs m (events (perform_all cs (construct c)))
  = if formula m (construct c) <? 0
    then List.length (filter (touches m) cs)
    else if existsb (touches m) cs then 1%nat else 0%nat.
Proof.
  assert (L : (cache m (construct c) <? 0) = true)
    by (rewrite construct_cache; apply unset_marker_below_zero).
  destruct (formula m (construct c) <? 0) eqn:F.
  - apply runs_when_negative; assumption.
  - apply runs_when_not_negative; assumption.
Qed.

(** ** Signs in binary64 arithmetic

    Products, sums and square roots of doubles that do not compare below
    zero do not compare below zero either; a square never does. *)

Lemma ltb_zero (x : float) : (x <? 0) = negb (sf_not_below_zero (Prim2SF x)).
Proof.
  rewrite ltb_spec. change (Prim2SF 0) with (S754_zero false).
  destruct (Prim2SF x) as [s|s| |s m e]; try destruct s; reflexivity.
Qed.

Lemma not_below_zero_iff (x : float) :
  (x <? 0) = false <-> sf_not_below_zero (Prim2SF x) = true.
Proof. rewrite ltb_zero. destruct (sf_not_below_zero (Prim2SF x)); cbn; intuition congruence. Qed.

Lemma round_keeps_sign (m e : Z) (l : location) :
  sf_not_below_zero (binary_round_aux prec emax false m e l) = true.
Proof.
  unfold binary_round_aux.
  destruct (shr_fexp prec emax m e l) as [mrs e'].
  destruct (shr_fexp prec emax _ e' loc_Exact) as [mrs' e''].
  destruct (shr_m mrs'); [reflexivity| |reflexivity].
  destruct (e'' <=? emax - prec)%Z; reflexivity.
Qed.

Lemma SFmul_not_below_zero (a b : spec_float) :
  sf_not_below_zero a = true -> sf_not_below_zero b = true ->
  sf_not_below_zero (SFmul prec emax a b) = true.
Proof.
  destruct a as [s|s| |s m e], b as [s'|s'| |s' m' e'];
    try destruct s; try destruct s'; cbn [sf_not_below_zero SFmul xorb];
    intros; try reflexivity; try discriminate.
  apply round_keeps_sign.
Qed.

Lemma SFsquare_not_below_zero (a : spec_float) :
  sf_not_below_zero (SFmul prec emax a a) = true.
Proof.
  destruct a as [s|s| |s m e]; try destruct s; cbn [sf_not_below_zero SFmul xorb];
    try reflexivity; apply round_keeps_sign.
Qed.

Lemma SFadd_not_below_zero (a b : spec_float) :
  sf_not_below_zero a = true -> sf_not_below_zero b = true ->
  sf_not_below_zero (SFadd prec emax a b) = true.
Proof.
  destruct a as [s|s| |s m e], b as [s'|s'| |s' m' e'];
    try destruct s; try destruct s'; cbn [sf_not_below_zero SFadd];
    intros; try reflexivity; try discriminate.
  cbn [cond_Zopp Z.add binary_normalize]. unfold binary_round.
  destruct (shl_align _ _ _) as [mz ez]. apply round_keeps_sign.
Qed.

Lemma SFsqrt_not_below_zero (a : spec_float) :
  sf_not_below_zero (SFsqrt prec emax a) = true.
Proof.
  destruct a as [s|s| |s m e]; try destruct s; cbn [sf_not_below_zero SFsqrt];
    try reflexivity.
  destruct (SFsqrt_core_binary prec emax (Z.pos m) e) as [[mz ez] lz].
  apply round_keeps_sign.
Qed.

Lemma mul_not_below_zero (x y : float) :
  (x <? 0) = false -> (y <? 0) = false -> (x * y <? 0) = false.
Proof.
  rewrite !not_below_zero_iff, mul_spec. apply SFmul_not_below_zero.
Qed.

Lemma square_not_below_zero (x : float) : (x * x <? 0) = false.
Proof. rewrite not_below_zero_iff, mul_spec. apply SFsquare_not_below_zero. Qed.

Lemma add_not_below_zero (x y : float) :
  (x <? 0) = false -> (y <? 0) = false -> (x + y <? 0) = false.
Proof.
  rewrite !not_below_zero_iff, add_spec. apply SFadd_not_below_zero.
Qed.

Lemma sqrt_not_below_zero (x : float) : (sqrt x <? 0) = false.
Proof. rewrite not_below_zero_iff, sqrt_spec. apply SFsqrt_not_below_zero. Qed.

Lemma add_nan_r (x : float) : x + nan = nan.
Proof.
  apply Prim2SF_inj. rewrite add_spec. change (Prim2SF nan) with S754_nan.
  destruct (Prim2SF x); reflexivity.
Qed.

Lemma add_nan_l (x : float) : nan + x = nan.
Proof.
  apply Prim2SF_inj. rewrite add_spec. change (Prim2SF nan) with S754_nan.
  reflexivity.
Qed.

Lemma SFmul_comm (a b : spec_float) : SFmul prec emax a b = SFmul prec emax b a.
Proof.
  destruct a as [s|s| |s m e], b as [s'|s'| |s' m' e']; cbn [SFmul];
    rewrite ?(xorb_comm s s'); try reflexivity.
  rewrite (Pos.mul_comm m m'), (Z.add_comm e e'). reflexivity.
Qed.

Lemma double_mul_comm (x y : float) : x * y = y * x.
Proof. apply Prim2SF_inj. rewrite !mul_spec. apply SFmul_comm. Qed.

Lemma SFadd_comm (a b : spec_float) : SFadd prec emax a b = SFadd prec emax b a.
Proof.
  destruct a as [s|s| |s m e], b as [s'|s'| |s' m' e']; cbn [SFadd];
    try destruct s; try destruct s'; try reflexivity.
  all: rewrite (Z.min_comm e e'); f_equal; apply Z.add_comm.
Qed.

Lemma double_add_comm (x y : float) : x + y = y + x.
Proof. apply Prim2SF_inj. rewrite !add_spec. apply SFadd_comm. Qed.

Lemma round_opp (s : bool) (m e : Z) (l : location) :
  binary_round_aux prec emax (negb s) m e l
  = SFopp (binary_round_aux prec emax s m e l).
Proof.
  unfold binary_round_aux.
  destruct (shr_fexp prec emax m e l) as [mrs e'].
  destruct (shr_fexp prec emax _ e' loc_Exact) as [mrs' e''].
  destruct (shr_m mrs'); [reflexivity| |reflexivity].
  destruct (e'' <=? emax - prec)%Z; reflexivity.
Qed.

Lemma SFmul_opp_r (a b : spec_float) :
  SFmul prec emax a (SFopp b) = SFopp (SFmul prec emax a b).
Proof.
  destruct a as [s|s| |s m e], b as [s'|s'| |s' m' e']; cbn [SFmul SFopp];
    try reflexivity; try (destruct s, s'; reflexivity).
  replace (xorb s (negb s')) with (negb (xorb s s'))
    by (destruct s, s'; reflexivity).
  apply round_opp.
Qed.

Lemma mul_opp_r (x y : float) : x * (- y) = - (x * y).
Proof.
  apply Prim2SF_inj. rewrite opp_spec, !mul_spec, opp_spec.
  apply SFmul_opp_r.
Qed.

Lemma mul_opp_opp (x : float) : (- x) * (- x) = x * x.
Proof.
  apply Prim2SF_inj. rewrite !mul_spec, opp_spec. unfold SF64mul.
  rewrite SFmul_opp_r, (SFmul_comm (SFopp (Prim2SF x))), SFmul_opp_r.
  destruct (SFmul prec emax (Prim2SF x) (Prim2SF x)) as [s|s| |s m e];
    cbn [SFopp]; rewrite ?negb_involutive; reflexivity.
Qed.


(** ** Which shapes are computed once *)

Lemma Circle_area_not_below_zero (r : float) :
  (calculateArea (new_Circle r) <? 0) = false.
Proof.
  apply (mul_not_below_zero Constants.PI (r * r));
    [reflexivity | apply square_not_below_zero].
Qed.

Lemma Triangle_area_not_below_zero (a b c : float) :
  (calculateArea (new_Triangle a b c) <? 0) = false.
Proof. apply sqrt_not_below_zero. Qed.

(** X2. Whatever the radius or the sides, negative ones included, the area
    of a circle or of a triangle never compares below zero, so over any
    sequence of calls its formula runs once if the area is read at all. *)
Theorem Circle_and_Triangle_areas_run_once :
  (forall (r : float) (cs : list Call),
     (calculateArea (new_Circle r) <? 0) = false /\
     runs Area (events (perform_all cs (new_Circle r)))
     = if existsb (touches Area) cs then 1%nat else 0%nat) /\
  (forall (a b c : float) (cs : list Call),
     (calculateArea (new_Triangle a b c) <? 0) = false /\
     runs Area (events (perform_all cs (new_Triangle a b c)))
     = if existsb (touches Area) cs then 1%nat else 0%nat).
Proof.
  split.
  - intros r cs. split; [apply Circle_area_not_below_zero|].
    pose proof (run_count Area (Ctor_Circle r) cs) as R.
    cbn [construct formula] in R.
    rewrite Circle_area_not_below_zero in R. exact R.
  - intros a b c cs. split; [apply Triangle_area_not_below_zero|].
    pose proof (run_count Area (Ctor_Triangle a b c) cs) as R.
    cbn [construct formula] in R.
    rewrite Triangle_area_not_below_zero in R. exact R.
Qed.

Lemma formula_not_below_zero (m : Metric) (c : Ctor) :
  no_negative_dimension c = true -> (formula m (construct c) <? 0) = false.
Proof.
  intros H. destruct c as [w h | r | a b c]; cbn [no_negative_dimension] in H.
  - apply andb_true_iff in H. destruct H as [Hw Hh].
    apply negb_true_iff in Hw, Hh. destruct m.
    + apply (mul_not_below_zero w h); assumption.
    + apply (mul_not_below_zero 2.0 (w + h)); [reflexivity|].
      apply add_not_below_zero; assumption.
  - apply negb_true_iff in H. destruct m.
    + apply Circle_area_not_below_zero.
    + apply (mul_not_below_zero (2.0 * Constants.PI) r);
        [reflexivity | assumption].
  - apply andb_true_iff in H. destruct H as [H Hc].
    apply andb_true_iff in H. destruct H as [Ha Hb].
    apply negb_true_iff in Ha, Hb, Hc. destruct m.
    + apply Triangle_area_not_below_zero.
    + apply (mul_not_below_zero 2.0 ((a + b + c) * 0.5)); [reflexivity|].
      apply mul_not_below_zero; [|reflexivity].
      apply add_not_below_zero; [|assumption].
      apply add_not_below_zero; assumption.
Qed.

(** X3. When no argument of the constructor compares below zero, neither
    the area nor the perimeter does, and over any sequence of calls each
    formula runs once if its metric is read at all. *)
Theorem shapes_without_negative_dimension_run_once
  (m : Metric) (c : Ctor) (cs : list Call) :
  no_negative_dimension c = true ->
  (formula m (construct c) <? 0) = false /\
  runs m (events (perform_all cs (construct c)))
  = if existsb (touches m) cs then 1%nat else 0%nat.
Proof.
  intros H. pose proof (formula_not_below_zero m c H) as F.
  split; [exact F|]. rewrite run_count, F. reflexivity.
Qed.

Lemma shapes_without_negative_dimension_run_once_witness :
  (formula Perimeter (construct (Ctor_Triangle 3.0 4.0 5.0)) <? 0) = false /\
  runs Perimeter
    (events (perform_all
               [Call_displayInfo; Call_getPerimeter; Call_processShape]
               (construct (Ctor_Triangle 3.0 4.0 5.0))))
  = 1%nat.
Proof.
  apply (shapes_without_negative_dimension_run_once Perimeter
           (Ctor_Triangle 3.0 4.0 5.0)
           [Call_displayInfo; Call_getPerimeter; Call_processShape]).
  reflexivity.
Defined.

(** ** What is printed *)

Lemma displayInfo_outputs (s : Shape) :
  outputs (events (displayInfo s))
  = report_with s (value (accessor Area s))
                (value (accessor Perimeter (after (accessor Area s)))).
Proof.
  destruct s as [n ca cp d].
  destruct (ca <? 0) eqn:Ea, (cp <? 0) eqn:Ep.
  all: destruct d; cbn; rewrite ?Ea; cbn; rewrite ?Ep; reflexivity.
Qed.

Lemma processShape_outputs (s : Shape) :
  outputs (events (processShape s))
  = [Text "Processing "; Text (name s); Text (":" ++ nl)]
    ++ outputs (events (displayInfo s)).
Proof. reflexivity. Qed.

Lemma construct_name (c : Ctor) :
  name (construct c) = class_name (derived (construct c)).
Proof. destruct c; reflexivity. Qed.

Lemma report_with_frame (s s' : Shape) (a p : float) :
  name s' = name s -> derived s' = derived s ->
  report_with s' a p = report_with s a p.
Proof. intros Hn Hd. unfold report_with. rewrite Hn, Hd. reflexivity. Qed.

(** The invariant of [history_cache] carries over one call of the other
    accessor. *)
Lemma accessor_value_after_other (m m' : Metric) (s : Shape) :
  m <> m' ->
  cache m s = -1.0 \/ cache m s = formula m s ->
  value (accessor m (after (accessor m' s))) = formula m s.
Proof.
  intros N I.
  rewrite accessor_value.
  - apply formula_derived, derived_accessor.
  - rewrite (cache_accessor_other m m' s N).
    rewrite (formula_derived m s _ (derived_accessor m' s)). exact I.
Qed.

Lemma displayInfo_report (c : Ctor) (cs : list Call) :
  outputs (events (displayInfo (after (perform_all cs (construct c)))))
  = report (construct c).
Proof.
  set (s := after (perform_all cs (construct c))).
  destruct (history_frame c cs) as [Hn Hd]. fold s in Hn, Hd.
  rewrite displayInfo_outputs.
  rewrite (accessor_value Area s (history_cache Area c cs)).
  rewrite (accessor_value_after_other Perimeter Area s Perimeter_is_not_Area
             (history_cache Perimeter c cs)).
  rewrite (report_with_frame (construct c) s _ _ Hn Hd).
  unfold report. f_equal.
  - apply (formula_derived Area _ _ Hd).
  - apply (formula_derived Perimeter _ _ Hd).
Qed.

Lemma displayInfo_fills (m : Metric) (c : Ctor) (cs : list Call) :
  cache m (after (displayInfo (after (perform_all cs (construct c)))))
  = formula m (construct c).
Proof.
  set (s := after (perform_all cs (construct c))).
  destruct (history_frame c cs) as [_ Hd]. fold s in Hd.
  pose proof (history_cache m c cs) as I. cbv zeta in I. fold s in I.
  change (displayInfo s) with (perform Call_displayInfo s).
  rewrite cache_perform.
  replace (touches m Call_displayInfo) with true by (destruct m; reflexivity).
  rewrite andb_true_l, <- (formula_derived m _ _ Hd).
  destruct (cache m s <? 0) eqn:L; [reflexivity|].
  destruct I as [I | I]; [|exact I].
  rewrite I, unset_marker_below_zero in L. discriminate.
Qed.

(** X4. Whatever was called on a shape before, [displayInfo()] writes the
    report made of the name, the measurements and the values of the two
    formulas, in that order, and leaves both caches holding those values;
    what it writes does not depend on the state of the caches. *)
Theorem displayInfo_writes_the_report (c : Ctor) (cs : list Call) :
  let s := after (perform_all cs (construct c)) in
  outputs (events (displayInfo s)) = report (construct c) /\
  cached_area (after (displayInfo s)) = calculateArea (construct c) /\
  cached_perimeter (after (displayInfo s)) = calculatePerimeter (construct c).
Proof.
  cbv zeta. split; [apply displayInfo_report|]. split.
  - apply (displayInfo_fills Area).
  - apply (displayInfo_fills Perimeter).
Qed.

(** X5. [processShape] writes the heading with the class name of the
    dynamic type and then the same report as [displayInfo()], and leaves the
    shape as [displayInfo()] does. *)
Theorem processShape_writes_heading_and_report (c : Ctor) (cs : list Call) :
  let s := after (perform_all cs (construct c)) in
  outputs (events (processShape s))
  = [Text "Processing "; Text (class_name (derived s)); Text (":" ++ nl)]
    ++ report (construct c) /\
  value (getName s) = class_name (derived s) /\
  after (processShape s) = after (displayInfo s).
Proof.
  cbv zeta. set (s := after (perform_all cs (construct c))).
  destruct (history_frame c cs) as [Hn Hd]. fold s in Hn, Hd.
  assert (N : name s = class_name (derived s))
    by (rewrite Hn, Hd; apply construct_name).
  split; [|split; [exact N | reflexivity]].
  rewrite processShape_outputs, N. unfold s. rewrite displayInfo_report.
  reflexivity.
Qed.

(** ** One element visited by both accessors *)

Lemma accessor_value_congr (m : Metric) (s s' : Shape) :
  cache m s' = cache m s -> derived s' = derived s ->
  value (accessor m s') = value (accessor m s).
Proof.
  intros Hc Hd. accessor_cases m s L.
  - rewrite accessor_unset by (rewrite Hc; exact L).
    apply (formula_derived m s s' Hd).
  - rewrite accessor_set by (rewrite Hc; exact L). exact Hc.
Qed.

Lemma accessor_value_after_any (m m' : Metric) (s : Shape) :
  value (accessor m (after (accessor m' s))) = value (accessor m s).
Proof.
  destruct (Metric_eq_dec m' m) as [<- | N].
  - accessor_cases m' s L; cbn [after value];
      [|rewrite (accessor_set m' s L); reflexivity].
    destruct (cache m' (store m' (formula m' s) s) <? 0) eqn:L'.
    + rewrite (accessor_unset _ _ L'). cbn [value].
      apply formula_derived, store_frame.
    + rewrite (accessor_set _ _ L'). apply cache_store_same.
  - apply accessor_value_congr.
    + apply cache_accessor_other. congruence.
    + apply derived_accessor.
Qed.

Lemma store_store (m : Metric) (v : float) (s : Shape) :
  store m v (store m v s) = store m v s.
Proof. destruct m; reflexivity. Qed.

Lemma accessor_after_twice (m : Metric) (s : Shape) :
  after (accessor m (after (accessor m s))) = after (accessor m s).
Proof.
  accessor_cases m s L; cbn [after];
    [|rewrite (accessor_set m s L); reflexivity].
  destruct (cache m (store m (formula m s) s) <? 0) eqn:L'.
  - rewrite (accessor_unset _ _ L'). cbn [after].
    rewrite (formula_derived m s _ (proj2 (store_frame m (formula m s) s))).
    apply store_store.
  - rewrite (accessor_set _ _ L'). reflexivity.
Qed.

Lemma accessors_commute (s : Shape) :
  after (accessor Area (after (accessor Perimeter s)))
  = after (accessor Perimeter (after (accessor Area s))).
Proof.
  destruct s as [n ca cp d].
  destruct (ca <? 0) eqn:Ea, (cp <? 0) eqn:Ep.
  all: cbn; rewrite ?Ea, ?Ep; cbn; rewrite ?Ea, ?Ep; reflexivity.
Qed.

Lemma visited_twice (s : Shape) : visited (visited s) = visited s.
Proof.
  unfold visited.
  change getArea with (accessor Area). change getPerimeter with (accessor Perimeter).
  rewrite accessors_commute, accessor_after_twice, accessor_after_twice.
  reflexivity.
Qed.

Lemma visited_area (s : Shape) :
  value (getArea (visited s)) = value (getArea s).
Proof.
  unfold visited.
  change getArea with (accessor Area). change getPerimeter with (accessor Perimeter).
  rewrite (accessor_value_after_any Area Perimeter).
  apply (accessor_value_after_any Area Area).
Qed.

Lemma visited_perimeter (s : Shape) :
  value (getPerimeter (visited s)) = value (getPerimeter s).
Proof.
  unfold visited.
  change getArea with (accessor Area). change getPerimeter with (accessor Perimeter).
  rewrite (accessor_value_after_any Perimeter Perimeter).
  apply (accessor_value_after_any Perimeter Area).
Qed.

Lemma visited_frame (s : Shape) :
  name (visited s) = name s /\ derived (visited s) = derived s.
Proof.
  destruct (advances_perform Call_displayInfo s) as (Hn & Hd & _).
  cbn [perform] in Hn, Hd. rewrite displayInfo_after in Hn, Hd.
  split; assumption.
Qed.

Lemma visited_cache (m : Metric) (s : Shape) :
  cache m (visited s) = if cache m s <? 0 then formula m s else cache m s.
Proof.
  pose proof (cache_perform m Call_displayInfo s) as H.
  cbn [perform] in H. rewrite displayInfo_after in H.
  replace (touches m Call_displayInfo) with true in H
    by (destruct m; reflexivity).
  exact H.
Qed.

(** ** The loops over the vector *)

Lemma stats_loop_after (stats : ShapeStats) (shapes : list Shape) :
  after (stats_loop stats shapes) = map visited shapes.
Proof.
  revert stats. induction shapes as [|shape rest IH]; intros stats.
  - reflexivity.
  - cbn [stats_loop after map]. rewrite IH. reflexivity.
Qed.

Lemma stats_loop_events (stats : ShapeStats) (shapes : list Shape) :
  events (stats_loop stats shapes)
  = flat_map (fun s => events (getArea s)
                       ++ events (getPerimeter (after (getArea s)))) shapes.
Proof.
  revert stats. induction shapes as [|shape rest IH]; intros stats.
  - reflexivity.
  - cbn [stats_loop events flat_map]. rewrite IH, app_assoc. reflexivity.
Qed.

Lemma outputs_app (l1 l2 : list Event) :
  outputs (l1 ++ l2) = outputs l1 ++ outputs l2.
Proof.
  induction l1 as [|e l1 IH]; [reflexivity|].
  destruct e; cbn [app outputs]; rewrite IH; reflexivity.
Qed.

Lemma accessor_outputs (m : Metric) (s : Shape) :
  outputs (events (accessor m s)) = [].
Proof. accessor_cases m s L; destruct m; reflexivity. Qed.

Lemma stats_loop_outputs (stats : ShapeStats) (shapes : list Shape) :
  outputs (events (stats_loop stats shapes)) = [].
Proof.
  rewrite stats_loop_events.
  induction shapes as [|shape rest IH]; [reflexivity|].
  cbn [flat_map]. rewrite !outputs_app, IH.
  rewrite (accessor_outputs Area shape
           : outputs (events (getArea shape)) = []).
  rewrite (accessor_outputs Perimeter (after (getArea shape))
           : outputs (events (getPerimeter (after (getArea shape)))) = []).
  reflexivity.
Qed.

Lemma display_all_after (shapes : list Shape) :
  after (display_all shapes) = map visited shapes.
Proof.
  induction shapes as [|shape rest IH]; [reflexivity|].
  cbn [display_all after map]. rewrite IH, displayInfo_after. reflexivity.
Qed.

Lemma reached_value (m : Metric) (h : History) :
  value (accessor m (reached h)) = formula m (built h).
Proof.
  destruct h as [c cs]. unfold reached, built. cbn [fst snd].
  rewrite (accessor_value m _ (history_cache m c cs)).
  apply formula_derived, history_frame.
Qed.

Lemma reached_visited_cache (m : Metric) (h : History) :
  cache m (visited (reached h)) = formula m (built h).
Proof.
  destruct h as [c cs]. unfold reached, built, visited. cbn [fst snd].
  rewrite <- displayInfo_after. apply displayInfo_fills.
Qed.

Lemma reached_frame (h : History) :
  name (reached h) = name (built h) /\
  derived (reached h) = derived (built h).
Proof. destruct h as [c cs]. apply history_frame. Qed.

(** X6. On a vector of shapes with any past, [calculateShapeStats] returns
    the sums of the values of the formulas, whatever the caches held, and
    the number of shapes; it writes nothing, keeps every shape in its place
    with its name and measurements, and leaves every cache holding the value
    of its formula. *)
Theorem calculateShapeStats_on_any_past (hs : list History) :
  let r := calculateShapeStats (map reached hs) in
  total_area (value r)
  = sum_doubles (map (fun h => calculateArea (built h)) hs) /\
  total_perimeter (value r)
  = sum_doubles (map (fun h => calculatePerimeter (built h)) hs) /\
  count (value r) = List.length hs /\
  outputs (events r) = [] /\
  map name (after r) = map (fun h => name (built h)) hs /\
  map derived (after r) = map (fun h => derived (built h)) hs /\
  map cached_area (after r) = map (fun h => calculateArea (built h)) hs /\
  map cached_perimeter (after r)
  = map (fun h => calculatePerimeter (built h)) hs.
Proof.
  cbv zeta. unfold calculateShapeStats.
  destruct (stats_loop_sums (map reached hs)
              {| total_area := 0.0; total_perimeter := 0.0;
                 count := List.length (map reached hs) |}) as (Ha & Hp & Hc).
  rewrite Ha, Hp, Hc, stats_loop_outputs, stats_loop_after.
  cbn [total_area total_perimeter count]. rewrite !map_map, length_map.
  unfold sum_doubles.
  split; [f_equal; apply map_ext; intros h; apply (reached_value Area)|].
  split; [f_equal; apply map_ext; intros h; apply (reached_value Perimeter)|].
  split; [reflexivity|]. split; [reflexivity|].
  split; [apply map_ext; intros h|].
  { rewrite (proj1 (visited_frame _)). apply reached_frame. }
  split; [apply map_ext; intros h|].
  { rewrite (proj2 (visited_frame _)). apply reached_frame. }
  split; apply map_ext; intros h.
  - apply (reached_visited_cache Area).
  - apply (reached_visited_cache Perimeter).
Qed.

Lemma ShapeStats_eq (a b : ShapeStats) :
  total_area a = total_area b -> total_perimeter a = total_perimeter b ->
  count a = count b -> a = b.
Proof. destruct a, b; cbn; intros; subst; reflexivity. Qed.

(** X7. Taking the statistics a second time, on the vector as the first
    call left it, returns the same statistics and leaves the vector as it
    was: this holds for every vector, whatever its caches hold. *)
Theorem calculateShapeStats_twice (shapes : list Shape) :
  let first := calculateShapeStats shapes in
  let second := calculateShapeStats (after first) in
  value second = value first /\ after second = after first.
Proof.
  cbv zeta. unfold calculateShapeStats.
  rewrite !stats_loop_after, length_map. split.
  - match goal with
    | |- value (stats_loop ?st1 ?l1) = value (stats_loop ?st2 ?l2) =>
        destruct (stats_loop_sums l1 st1) as (Ha1 & Hp1 & Hc1);
        destruct (stats_loop_sums l2 st2) as (Ha2 & Hp2 & Hc2)
    end.
    apply ShapeStats_eq.
    + rewrite Ha1, Ha2, map_map. cbn [total_area]. f_equal.
      apply map_ext. intros s. apply visited_area.
    + rewrite Hp1, Hp2, map_map. cbn [total_perimeter]. f_equal.
      apply map_ext. intros s. apply visited_perimeter.
    + rewrite Hc1, Hc2. reflexivity.
  - rewrite map_map. apply map_ext. intros s. apply visited_twice.
Qed.

Lemma fold_add_nan (l : list float) : fold_left PrimFloat.add l nan = nan.
Proof.
  induction l as [|x l IH]; [reflexivity|].
  cbn [fold_left]. rewrite add_nan_l. exact IH.
Qed.

Lemma fold_add_In_nan (l : list float) (acc : float) :
  In nan l -> fold_left PrimFloat.add l acc = nan.
Proof.
  revert acc. induction l as [|x l IH]; intros acc H; [destruct H|].
  cbn [fold_left]. destruct H as [-> | H].
  - rewrite add_nan_r. apply fold_add_nan.
  - apply IH, H.
Qed.

(** X8. A single shape whose area is not-a-number makes the total area
    not-a-number, wherever it stands in the vector and whatever the other
    areas are; likewise for the total perimeter. *)
Theorem nan_poisons_the_totals (shapes : list Shape) (s : Shape) :
  In s shapes ->
  (value (getArea s) = nan ->
   total_area (value (calculateShapeStats shapes)) = nan) /\
  (value (getPerimeter s) = nan ->
   total_perimeter (value (calculateShapeStats shapes)) = nan).
Proof.
  intros H. unfold calculateShapeStats.
  match goal with
  | |- context [stats_loop ?st shapes] =>
      destruct (stats_loop_sums shapes st) as (Ha & Hp & _)
  end.
  rewrite Ha, Hp. split; intros N; apply fold_add_In_nan; rewrite <- N.
  - apply (in_map (fun s => value (getArea s))), H.
  - apply (in_map (fun s => value (getPerimeter s))), H.
Qed.

Lemma nan_poisons_the_totals_witness :
  let shapes :=
    [new_Rectangle 5.0 3.0; new_Triangle infinity neg_infinity 1.0;
     new_Circle 4.0] in
  total_area (value (calculateShapeStats shapes)) = nan /\
  total_perimeter (value (calculateShapeStats shapes)) = nan.
Proof.
  cbv zeta.
  destruct (nan_poisons_the_totals
              [new_Rectangle 5.0 3.0; new_Triangle infinity neg_infinity 1.0;
               new_Circle 4.0]
              (new_Triangle infinity neg_infinity 1.0)
              (or_intror (or_introl eq_refl))) as [Ha Hp].
  split; [exact (Ha eq_refl) | exact (Hp eq_refl)].
Defined.

Lemma stats_loop_app (stats : ShapeStats) (l1 l2 : list Shape) :
  stats_loop stats (l1 ++ l2)
  = mkOutcome
      (value (stats_loop (value (stats_loop stats l1)) l2))
      (after (stats_loop stats l1)
       ++ after (stats_loop (value (stats_loop stats l1)) l2))
      (events (stats_loop stats l1)
       ++ events (stats_loop (value (stats_loop stats l1)) l2)).
Proof.
  revert stats. induction l1 as [|shape rest IH]; intros stats.
  - cbn [app stats_loop value after events].
    destruct (stats_loop stats l2); reflexivity.
  - cbn [app stats_loop]. rewrite IH. cbn [value after events].
    rewrite <- !app_assoc. reflexivity.
Qed.

(** X9. The statistics of two vectors put end to end continue those of the
    first: the sums go on from the totals of the first vector through the
    shapes of the second, the counts add up, and the shapes and the trace
    left behind are those of the two parts, in order. *)
Theorem calculateShapeStats_app (l1 l2 : list Shape) :
  let whole := calculateShapeStats (l1 ++ l2) in
  let first := calculateShapeStats l1 in
  let second := calculateShapeStats l2 in
  total_area (value whole)
  = fold_left PrimFloat.add (map (fun s => value (getArea s)) l2)
              (total_area (value first)) /\
  total_perimeter (value whole)
  = fold_left PrimFloat.add (map (fun s => value (getPerimeter s)) l2)
              (total_perimeter (value first)) /\
  count (value whole) = (count (value first) + count (value second))%nat /\
  after whole = after first ++ after second /\
  events whole = events first ++ events second.
Proof.
  cbv zeta. unfold calculateShapeStats.
  rewrite !stats_loop_after, !stats_loop_events, map_app, flat_map_app.
  repeat match goal with
  | |- context [value (stats_loop ?st ?l)] =>
      let Ha := fresh "Ha" in let Hp := fresh "Hp" in let Hc := fresh "Hc" in
      destruct (stats_loop_sums l st) as (Ha & Hp & Hc);
      rewrite Ha, Hp, Hc; clear Ha Hp Hc
  end.
  cbn [total_area total_perimeter count].
  rewrite !map_app, !fold_left_app, length_app. repeat split.
  match goal with
  | |- context [stats_loop ?st l2] =>
      destruct (stats_loop_sums l2 st) as (_ & _ & Hc)
  end.
  rewrite Hc. reflexivity.
Qed.

(** ** Displaying, then taking the statistics *)

Lemma visited_filled (s : Shape) :
  caches_filled s = true ->
  visited s = s /\
  events (getArea s) ++ events (getPerimeter (after (getArea s))) = [].
Proof.
  unfold caches_filled. intros H. apply andb_true_iff in H.
  destruct H as [Ha Hp]. apply negb_true_iff in Ha, Hp.
  unfold visited.
  change getArea with (accessor Area).
  change getPerimeter with (accessor Perimeter).
  rewrite (accessor_set Area s Ha). cbn [after events].
  rewrite (accessor_set Perimeter s Hp). split; reflexivity.
Qed.

Lemma stats_loop_filled (stats : ShapeStats) (shapes : list Shape) :
  forallb caches_filled shapes = true ->
  events (stats_loop stats shapes) = [] /\
  after (stats_loop stats shapes) = shapes.
Proof.
  rewrite stats_loop_after, stats_loop_events.
  induction shapes as [|shape rest IH]; intros H; [split; reflexivity|].
  cbn [forallb] in H. apply andb_true_iff in H. destruct H as [Hs Hr].
  destruct (visited_filled shape Hs) as [V E]. destruct (IH Hr) as [IE IA].
  cbn [flat_map map]. rewrite E, IE, V, IA. split; reflexivity.
Qed.

Lemma visited_fills (s : Shape) :
  formulas_not_below_zero s = true -> caches_filled (visited s) = true.
Proof.
  unfold formulas_not_below_zero, caches_filled. intros H.
  apply andb_true_iff in H. destruct H as [Fa Fp].
  apply negb_true_iff in Fa, Fp.
  pose proof (visited_cache Area s) as Ca.
  pose proof (visited_cache Perimeter s) as Cp.
  cbn [cache formula] in Ca, Cp. rewrite Ca, Cp.
  destruct (cached_area s <? 0) eqn:La, (cached_perimeter s <? 0) eqn:Lp;
    rewrite ?Fa, ?Fp, ?La, ?Lp; reflexivity.
Qed.

(** X10. Once every shape of a vector has been displayed, as [main] does
    before it takes the statistics, and provided no formula gives a value
    below zero, [calculateShapeStats] runs no formula, writes nothing and
    leaves the vector exactly as it found it. *)
Theorem statistics_after_display (shapes : list Shape) :
  forallb formulas_not_below_zero shapes = true ->
  let displayed := after (display_all shapes) in
  events (calculateShapeStats displayed) = [] /\
  after (calculateShapeStats displayed) = displayed /\
  count (value (calculateShapeStats displayed)) = List.length shapes.
Proof.
  intros H. cbv zeta. rewrite display_all_after. unfold calculateShapeStats.
  assert (F : forallb caches_filled (map visited shapes) = true).
  { induction shapes as [|shape rest IH]; [reflexivity|].
    cbn [forallb map] in *. apply andb_true_iff in H. destruct H as [Hs Hr].
    rewrite (visited_fills shape Hs), (IH Hr). reflexivity. }
  match goal with
  | |- context [stats_loop ?st (map visited shapes)] =>
      destruct (stats_loop_filled st _ F) as [E A];
      destruct (stats_loop_sums (map visited shapes) st) as (_ & _ & Hc)
  end.
  rewrite E, A, Hc. cbn [count]. rewrite length_map. repeat split.
Qed.

Lemma statistics_after_display_witness :
  let displayed := after (display_all main_shapes) in
  events (calculateShapeStats displayed) = [] /\
  after (calculateShapeStats displayed) = displayed /\
  count (value (calculateShapeStats displayed)) = 5%nat.
Proof.
  exact (statistics_after_display main_shapes eq_refl).
Defined.

(** ** Symmetries of the formulas *)

(** X11. A circle built with the opposite radius has the same area, since
    the radius is squared at construction, and the opposite circumference:
    a negative radius is not told apart by its area. *)
Theorem Circle_opposite_radius (r : float) :
  calculateArea (new_Circle (- r)) = calculateArea (new_Circle r) /\
  calculatePerimeter (new_Circle (- r)) = - calculatePerimeter (new_Circle r).
Proof.
  split.
  - change (Constants.PI * ((- r) * (- r)) = Constants.PI * (r * r)).
    rewrite mul_opp_opp. reflexivity.
  - change (2.0 * Constants.PI * (- r) = - (2.0 * Constants.PI * r)).
    apply mul_opp_r.
Qed.

(** X12. Exchanging width and height changes neither the area nor the
    perimeter of a rectangle, to the last bit. *)
Theorem Rectangle_exchange_width_and_height (w h : float) :
  calculateArea (new_Rectangle h w) = calculateArea (new_Rectangle w h) /\
  calculatePerimeter (new_Rectangle h w)
  = calculatePerimeter (new_Rectangle w h).
Proof.
  split.
  - apply (double_mul_comm h w).
  - change (2.0 * (h + w) = 2.0 * (w + h)).
    rewrite (double_add_comm h w). reflexivity.
Qed.
